(** * Bug Slayer monster sprites: [scripts/generate_monsters.py]

    A shallow embedding of the sprite generator.  Python integers are [Z],
    a colour is the 4-tuple the palette stores, the palette [C] and every
    pixel map are dictionaries ([gmap]), the body set is a [gset] of
    coordinates.  A subscript [C[name]] on a missing name raises [KeyError];
    nothing in the script catches it, so generators live in an error
    monad. *)

From stdpp Require Import gmap strings list fin_maps.

Local Open Scope Z_scope.

(** ** Data model *)

(** An RGBA value, [(r, g, b, a)]. *)
Definition rgba : Type := Z * Z * Z * Z.

(** A pixel coordinate, [(x, y)]. *)
Definition coord : Type := Z * Z.

(** The exceptions the statements of the script raise by themselves: a
    missing dictionary key, an index outside a list or an image.  The
    [OSError] of a failing file operation is not among them, see [files]. *)
Inductive exn : Type :=
| KeyError (name : string)
| IndexError.

(** A computation that returns or raises; nothing in the script catches. *)
Inductive result (A : Type) : Type :=
| Ok (a : A)
| Raise (e : exn).
Arguments Ok {A} a.
Arguments Raise {A} e.

#[global] Instance result_ret : MRet result := λ A a, Ok a.
#[global] Instance result_bind : MBind result := λ A B f r,
  match r with
  | Ok a => f a
  | Raise e => Raise e
  end.

(** A [for] loop whose body may raise: the first exception leaves the loop. *)
Fixpoint for_ {A S : Type} (l : list A) (f : A → S → result S) (s : S)
    : result S :=
  match l with
  | [] => Ok s
  | a :: l' => s' ← f a s; for_ l' f s'
  end.

(** A sequence of statements over one state. *)
Definition block {S : Type} (stmts : list (S → result S)) (s : S) : result S :=
  for_ stmts (λ stmt, stmt) s.

(** [d[name]] on a dictionary keyed by colour names. *)
Definition getitem (d : gmap string rgba) (name : string) : result rgba :=
  match d !! name with
  | Some c => Ok c
  | None => Raise (KeyError name)
  end.

(** [l[i]] on a list, negative indices counting from the end. *)
Definition list_getitem (l : list rgba) (i : Z) : result rgba :=
  let j := if i <? 0 then i + Z.of_nat (length l) else i in
  if j <? 0 then Raise IndexError
  else match l !! Z.to_nat j with
       | Some c => Ok c
       | None => Raise IndexError
       end.

(** [range(a, b)]. *)
Definition range (a b : Z) : list Z := seqZ a (b - a).

(** [d.update(other)]: the entries of [other] win. *)
Definition update (d other : gmap coord rgba) : gmap coord rgba := other ∪ d.

(** ** The VS Code Dark+ palette *)

Definition C : gmap string rgba :=
  <["dark_cyan" := (50, 140, 120, 255)]>
  (<["cyan" := (78, 201, 176, 255)]>
  (<["dark_brown" := (100, 65, 40, 255)]>
  (<["brown" := (150, 100, 60, 255)]>
  (<["dark_gray" := (80, 80, 80, 255)]>
  (<["gray" := (128, 128, 128, 255)]>
  (<["white" := (212, 212, 212, 255)]>
  (<["magenta" := (190, 60, 160, 255)]>
  (<["dark_purple" := (130, 80, 130, 255)]>
  (<["purple" := (197, 134, 192, 255)]>
  (<["light_blue" := (156, 220, 254, 255)]>
  (<["dark_blue" := (50, 100, 160, 255)]>
  (<["blue" := (86, 156, 214, 255)]>
  (<["light_green" := (181, 206, 168, 255)]>
  (<["dark_green" := (60, 100, 50, 255)]>
  (<["green" := (106, 153, 85, 255)]>
  (<["yellow" := (220, 220, 170, 255)]>
  (<["orange" := (206, 145, 120, 255)]>
  (<["dark_red" := (180, 40, 40, 255)]>
  (<["red" := (244, 71, 71, 255)]>
  (<["dark_bg" := (30, 30, 30, 255)]>
  (<["black" := (0, 0, 0, 255)]>
  (<["transparent" := (0, 0, 0, 0)]> ∅)))))))))))))))))))))).

(** ** Images *)

(** A raster of [size = (width, height)], its cells stored row by row. *)
Record Image : Type := { im_size : Z * Z; im_data : list rgba }.

(** [Image.new('RGBA', size, fill)]. *)
Definition Image_new (size : Z * Z) (fill : rgba) : Image :=
  {| im_size := size; im_data := replicate (Z.to_nat (size.1 * size.2)) fill |}.

(** Whether [xy] is a cell of [img]. *)
Definition inside (img : Image) (xy : coord) : bool :=
  (0 <=? xy.1) && (xy.1 <? (im_size img).1)
    && (0 <=? xy.2) && (xy.2 <? (im_size img).2).

(** Position of cell [xy] in the row-major data. *)
Definition cell (img : Image) (xy : coord) : nat :=
  Z.to_nat (xy.2 * (im_size img).1 + xy.1).

(** [img.putpixel(xy, value)]; a coordinate outside the image is an
    [IndexError]. *)
Definition putpixel (img : Image) (xy : coord) (value : rgba) : result Image :=
  if inside img xy
  then Ok {| im_size := im_size img;
             im_data := <[cell img xy := value]> (im_data img) |}
  else Raise IndexError.

(** [img.getpixel(xy)]. *)
Definition getpixel (img : Image) (xy : coord) : result rgba :=
  if inside img xy
  then match im_data img !! cell img xy with
       | Some c => Ok c
       | None => Raise IndexError
       end
  else Raise IndexError.

(** The output directory: file name to the image saved under it.  Saving
    is an insertion into this map.  The script creates the directory with
    [os.makedirs] when the module is loaded and saves with [img.save] and
    [os.path.getsize]; each of these can raise [OSError], which ends the
    run.  Those failures are outside this model: what is stated about
    [make_sprite], [finish] and [main] describes the runs in which the file
    operations succeed, and nothing here says that a run returns on a real
    file system. *)
Abbreviation files := (gmap string Image).

(** ** Outline synthesis *)

(** The offsets [[(-1,0),(1,0),(0,-1),(0,1)]]. *)
Definition offsets : list (Z * Z) := [(-1, 0); (1, 0); (0, -1); (0, 1)].

(** The test guarding [outlined[(nx, ny)] = color]. *)
Definition outline_test (body_pixels : gset coord) (n : coord) : bool :=
  bool_decide (n ∉ body_pixels) && (0 <=? n.1) && (n.1 <? 32)
    && (0 <=? n.2) && (n.2 <? 32).

(** Body of the inner loop over the offsets. *)
Definition outline_offset (body_pixels : gset coord) (color : rgba)
    (p : coord) (outlined : gmap coord rgba) (d : Z * Z) : gmap coord rgba :=
  let n := (p.1 + d.1, p.2 + d.2) in
  if outline_test body_pixels n then <[n := color]> outlined else outlined.

(** Body of the outer loop over the body pixels. *)
Definition outline_pixel (body_pixels : gset coord) (color : rgba)
    (outlined : gmap coord rgba) (p : coord) : gmap coord rgba :=
  foldl (outline_offset body_pixels color p) outlined offsets.

(** [draw_outline] with the iteration order of the set made explicit. *)
Definition draw_outline_in (order : list coord) (pixels : gmap coord rgba)
    (body_pixels : gset coord) (color : rgba) : gmap coord rgba :=
  foldl (outline_pixel body_pixels color) pixels order.

(** [draw_outline(pixels, body_pixels, color)]. *)
Definition draw_outline (pixels : gmap coord rgba) (body_pixels : gset coord)
    (color : rgba) : gmap coord rgba :=
  draw_outline_in (elements body_pixels) pixels body_pixels color.

(** ** Sprite state *)

(** The two locals every generator builds: the dictionary [body] and the
    set [body_set]. *)
Record sprite : Type := { body : gmap coord rgba; body_set : gset coord }.

(** [body = {}; body_set = set()]. *)
Definition fresh : sprite := {| body := ∅; body_set := ∅ |}.

(** [body[k] = c]. *)
Definition setitem (k : coord) (c : rgba) (st : sprite) : sprite :=
  {| body := <[k := c]> (body st); body_set := body_set st |}.

(** [body_set.add(k)]. *)
Definition add (k : coord) (st : sprite) : sprite :=
  {| body := body st; body_set := {[k]} ∪ body_set st |}.

(** [body_set.update(ks)]. *)
Definition set_update (ks : list coord) (st : sprite) : result sprite :=
  Ok {| body := body st; body_set := list_to_set ks ∪ body_set st |}.

(** [body[k] = c; body_set.add(k)]. *)
Definition put (k : coord) (c : rgba) (st : sprite) : sprite :=
  add k (setitem k c st).

(** ** The generators *)

(** The generators read the module globals [C], [T = C['transparent']] and
    [B = C['black']].  They are variables of this section, so that a run
    under another table can be stated too; [main] binds them the way the
    module does. *)
Section Generators.
Context (C : gmap string rgba) (T B : rgba).

(** [body[k] = C[name]]. *)
Definition assign (k : coord) (name : string) (st : sprite) : result sprite :=
  c ← getitem C name; Ok (setitem k c st).

(** [body[k] = C[name]; body_set.add(k)]. *)
Definition assign_add (k : coord) (name : string) (st : sprite)
    : result sprite :=
  c ← getitem C name; Ok (put k c st).

(** [make_sprite] with the iteration order of [pixels_map.items()] made
    explicit.  The image is saved as [<name>-south.png]; the save is the
    insertion into [files], with no [OSError]. *)
Definition make_sprite_in (items : list (coord * rgba)) (name : string)
    (fs : files) : result (Image * files) :=
  img ← for_ items (λ '((x, y), color) img,
           if (0 <=? x) && (x <? 32) && (0 <=? y) && (y <? 32)
           then putpixel img (x, y) color
           else Ok img)
         (Image_new (32, 32) T);
  Ok (img, <[name +:+ "-south.png" := img]> fs).

(** [make_sprite(pixels_map, name)]. *)
Definition make_sprite (pixels_map : gmap coord rgba) (name : string)
    (fs : files) : result (Image * files) :=
  make_sprite_in (map_to_list pixels_map) name fs.

(** [pixels = draw_outline(body, body_set); pixels.update(body)]. *)
Definition composite (st : sprite) : gmap coord rgba :=
  let pixels := draw_outline (body st) (body_set st) B in
  update pixels (body st).

(** The three statements that close every generator. *)
Definition finish (st : sprite) (name : string) (fs : files) : result files :=
  r ← make_sprite (composite st) name fs; Ok r.2.

(** *** nullpointer *)

Definition nullpointer_fill : sprite → result sprite :=
  for_ (range 8 26) (λ y,
    let w := if y <? 12 then Z.min ((y - 8) * 2 + 2) 10
             else if y <? 22 then 10 else 10 in
    for_ (range (16 - w / 2) (16 + w / 2)) (λ x st,
      if (22 <=? y) && ((x + y) mod 3 =? 0) then Ok st
      else
        col ← (if y <? 18 then getitem C "purple"
               else getitem C "dark_purple");
        Ok (put (x, y) col st))).

Definition nullpointer_detail : sprite → result sprite :=
  block [
    for_ [13; 14] (λ x, for_ [14; 15; 16] (λ y, assign (x, y) "dark_bg"));
    for_ [18; 19] (λ x, for_ [14; 15; 16] (λ y, assign (x, y) "dark_bg"));
    assign (13, 14) "light_blue";
    assign (18, 14) "light_blue";
    assign (14, 20) "magenta";
    assign (16, 20) "magenta";
    assign (18, 20) "magenta" ].

Definition nullpointer_body : result sprite :=
  st ← nullpointer_fill fresh; nullpointer_detail st.

Definition nullpointer (fs : files) : result files :=
  st ← nullpointer_body; finish st "nullpointer" fs.

(** *** typemismatch *)

(** Body of the inner loop: colour by half and row parity, then the glitch
    shift on every fifth row. *)
Definition typemismatch_pixel (cx y x : Z) (st : sprite) : result sprite :=
  col ← (if x <? cx
         then (if y mod 2 =? 0 then getitem C "red" else getitem C "dark_red")
         else (if y mod 2 =? 0 then getitem C "orange"
               else getitem C "yellow"));
  if y mod 5 =? 0
  then let shift := if x <? cx then 1 else -1 in
       Ok (put (x + shift, y) col st)
  else Ok (put (x, y) col st).

(** Width of the body on row [y]. *)
Definition typemismatch_w (y : Z) : Z :=
  if y <? 10 then Z.min ((y - 6) * 2 + 4) 14
  else if y <? 24 then 14
  else Z.max (14 - (y - 24) * 3) 4.

Definition typemismatch_fill : sprite → result sprite :=
  for_ (range 6 28) (λ y,
    let w := typemismatch_w y in
    let cx := 16 in
    for_ (range (cx - w / 2) (cx + w / 2)) (typemismatch_pixel cx y)).

Definition typemismatch_detail : sprite → result sprite :=
  block [
    for_ (range 8 26) (λ y st, Ok (setitem (16, y) B st));
    assign (13, 12) "white";
    assign (14, 12) "white";
    assign (13, 13) "red";
    assign (14, 13) "white";
    assign (18, 11) "yellow";
    assign (19, 12) "yellow";
    assign (18, 13) "yellow";
    for_ (range 13 20) (λ x, assign (x, 18) "dark_bg");
    assign (14, 17) "dark_bg";
    assign (18, 17) "dark_bg" ].

Definition typemismatch_body : result sprite :=
  st ← typemismatch_fill fresh; typemismatch_detail st.

Definition typemismatch (fs : files) : result files :=
  st ← typemismatch_body; finish st "typemismatch" fs.

(** *** offbyone *)

Definition offbyone_fill : sprite → result sprite :=
  for_ (range 8 26) (λ y,
    let w := if y <? 12 then Z.min ((y - 8) * 2 + 4) 12
             else if y <? 22 then 12
             else Z.max (12 - (y - 22) * 2) 4 in
    let cx := 15 in
    for_ (range (cx - w / 2) (cx + w / 2)) (λ x st,
      col ← (if negb ((x + y) mod 3 =? 0) then getitem C "green"
             else getitem C "dark_green");
      Ok (put (x, y) col st))).

Definition offbyone_detail : sprite → result sprite :=
  block [
    assign (14, 7) "light_green";
    assign (14, 6) "light_green";
    assign (13, 5) "light_green";
    assign (17, 7) "light_green";
    assign (17, 6) "light_green";
    assign (18, 5) "light_green";
    assign (12, 13) "white";
    assign (13, 13) "white";
    assign (12, 14) "yellow";
    assign (13, 14) "white";
    assign (17, 12) "white";
    assign (18, 12) "white";
    assign (17, 13) "yellow";
    assign (18, 13) "white";
    for_ [-1; 0; 1] (λ dx,
      let lx := 10 + dx * 3 in
      let rx := 19 + dx * 3 in
      block [
        assign (lx, 24 + Z.abs dx) "dark_green";
        assign (rx, 24 + Z.abs dx) "dark_green";
        assign (lx, 25 + Z.abs dx) "dark_green";
        assign (rx, 25 + Z.abs dx) "dark_green" ]);
    assign (15, 19) "yellow";
    assign (16, 19) "yellow" ].

Definition offbyone_body : result sprite :=
  st ← offbyone_fill fresh; offbyone_detail st.

Definition offbyone (fs : files) : result files :=
  st ← offbyone_body; finish st "offbyone" fs.

(** *** stackoverflow_boss *)

(** One stack frame: the filled rectangle, then its borders. *)
Definition stackoverflow_layer (layer : Z * Z * Z * Z * rgba)
    : sprite → result sprite :=
  let '(lx, ly, rx, ry, col) := layer in
  block [
    for_ (range ly ry) (λ y,
      for_ (range lx rx) (λ x st, Ok (put (x, y) col st)));
    for_ (range lx rx) (λ x,
      block [ assign (x, ly) "yellow"; assign (x, ry - 1) "dark_brown" ]);
    for_ (range ly ry) (λ y,
      block [ assign (lx, y) "yellow"; assign (rx - 1, y) "dark_brown" ]) ].

Definition stackoverflow_fill (st : sprite) : result sprite :=
  c1 ← getitem C "dark_red";
  c2 ← getitem C "red";
  c3 ← getitem C "dark_red";
  c4 ← getitem C "red";
  let layers := [ (8, 10, 24, 14, c1);
                  (7, 14, 25, 18, c2);
                  (6, 18, 26, 23, c3);
                  (5, 23, 27, 27, c4) ] in
  for_ layers stackoverflow_layer st.

(** The crown and horns, and their registration in [body_set]. *)
Definition stackoverflow_crown : sprite → result sprite :=
  block [
    for_ [12; 16; 20] (λ x,
      block [ assign (x, 8) "yellow"; assign (x, 9) "yellow" ]);
    assign (11, 9) "yellow";
    assign (21, 9) "yellow";
    set_update [(12, 8); (16, 8); (20, 8); (12, 9); (16, 9); (20, 9);
                (11, 9); (21, 9)] ].

Definition stackoverflow_detail : sprite → result sprite :=
  block [
    stackoverflow_crown;
    for_ [12; 13] (λ x,
      block [ assign (x, 12) "yellow"; assign (x, 13) "yellow" ]);
    for_ [19; 20] (λ x,
      block [ assign (x, 12) "yellow"; assign (x, 13) "yellow" ]);
    assign (13, 13) "dark_bg";
    assign (19, 13) "dark_bg";
    for_ (range 13 20) (λ x, assign (x, 16) "dark_bg");
    assign (14, 15) "dark_bg";
    assign (18, 15) "dark_bg";
    for_ (range 10 22) (λ x st,
      if x mod 2 =? 0 then assign (x, 25) "yellow" st else Ok st) ].

Definition stackoverflow_body : result sprite :=
  st ← stackoverflow_fill fresh; stackoverflow_detail st.

Definition stackoverflow_boss (fs : files) : result files :=
  st ← stackoverflow_body; finish st "stackoverflow" fs.

(** *** racecondition *)

(** Twin 1: slightly left, blue. *)
Definition racecondition_twin1 : sprite → result sprite :=
  for_ (range 8 24) (λ y,
    let w := if y <? 20 then 8 else Z.max (8 - (y - 20)) 4 in
    let cx := 13 in
    for_ (range (cx - w / 2) (cx + w / 2)) (λ x, assign_add (x, y) "blue")).

(** Body of the inner loop of twin 2: blend where [(x, y) in body]. *)
Definition racecondition_pixel2 (y x : Z) (st : sprite) : result sprite :=
  st' ← (if bool_decide ((x, y) ∈ dom (body st))
         then assign (x, y) "cyan" st
         else assign (x, y) "light_blue" st);
  Ok (add (x, y) st').

(** Twin 2: slightly right, light blue, overlapping. *)
Definition racecondition_twin2 : sprite → result sprite :=
  for_ (range 9 25) (λ y,
    let w := if y <? 21 then 8 else Z.max (8 - (y - 21)) 4 in
    let cx := 19 in
    for_ (range (cx - w / 2) (cx + w / 2)) (racecondition_pixel2 y)).

Definition racecondition_fill (st : sprite) : result sprite :=
  st ← racecondition_twin1 st; racecondition_twin2 st.

Definition racecondition_detail : sprite → result sprite :=
  block [
    assign (12, 13) "white";
    assign (13, 13) "white";
    assign (12, 14) "dark_bg";
    assign (18, 14) "white";
    assign (19, 14) "white";
    assign (19, 15) "dark_bg";
    for_ [11; 15; 19] (λ y,
      block [
        assign (7, y) "dark_blue";
        assign (6, y) "dark_blue";
        assign (24, y + 1) "dark_blue";
        assign (25, y + 1) "dark_blue";
        set_update [(7, y); (6, y); (24, y + 1); (25, y + 1)] ]) ].

Definition racecondition_body : result sprite :=
  st ← racecondition_fill fresh; racecondition_detail st.

Definition racecondition (fs : files) : result files :=
  st ← racecondition_body; finish st "racecondition" fs.

(** *** memoryleak *)

Definition memoryleak_fill : sprite → result sprite :=
  for_ (range 7 24) (λ y,
    let w := if y <? 11 then Z.min ((y - 7) * 3 + 4) 16
             else if y <? 20 then 16
             else Z.max (16 - (y - 20) * 2) 8 in
    let cx := 16 in
    for_ (range (cx - w / 2) (cx + w / 2)) (λ x st,
      shade ← (if (x + y) mod 2 =? 0 then getitem C "green"
               else getitem C "light_green");
      Ok (put (x, y) shade st))).

Definition memoryleak_detail : sprite → result sprite :=
  block [
    (let drips := [(10, 3); (14, 5); (18, 4); (22, 2)] in
     for_ drips (λ '(dx, length),
       for_ (range 0 length) (λ dy st,
         c ← (if dy mod 2 =? 0 then getitem C "green"
              else getitem C "dark_green");
         Ok (put (dx, 24 + dy) c st))));
    assign (12, 13) "white";
    assign (13, 13) "white";
    assign (12, 14) "white";
    assign (13, 14) "dark_bg";
    assign (19, 13) "white";
    assign (20, 13) "white";
    assign (19, 14) "dark_bg";
    assign (20, 14) "white";
    assign (15, 18) "dark_green";
    assign (16, 18) "dark_green";
    assign (17, 18) "dark_green";
    assign (16, 19) "dark_green";
    assign (16, 20) "dark_green";
    assign (22, 9) "light_green";
    assign (24, 7) "light_green";
    assign (23, 8) "light_green";
    set_update [(22, 9); (24, 7); (23, 8)] ].

Definition memoryleak_body : result sprite :=
  st ← memoryleak_fill fresh; memoryleak_detail st.

Definition memoryleak (fs : files) : result files :=
  st ← memoryleak_body; finish st "memoryleak" fs.

(** *** deadlock *)

Definition deadlock_fill : sprite → result sprite :=
  for_ (range 9 25) (λ y,
    let w := if y <? 13 then Z.min ((y - 9) * 2 + 6) 14
             else if y <? 21 then 14
             else Z.max (14 - (y - 21) * 2) 6 in
    let cx := 16 in
    for_ (range (cx - w / 2) (cx + w / 2)) (λ x st,
      col ← (if (x + y) mod 2 =? 0 then getitem C "gray"
             else getitem C "dark_gray");
      Ok (put (x, y) col st))).

Definition deadlock_detail : sprite → result sprite :=
  block [
    (let chain_l := [(7, 14); (8, 13); (8, 15); (7, 16); (6, 15); (6, 13)] in
     for_ chain_l (λ '(x, y), assign_add (x, y) "brown"));
    (let chain_r := [(25, 14); (24, 13); (24, 15); (25, 16); (26, 15);
                     (26, 13)] in
     for_ chain_r (λ '(x, y), assign_add (x, y) "brown"));
    for_ (range 14 19) (λ x,
      block [ assign (x, 16) "yellow"; assign (x, 17) "yellow" ]);
    assign (15, 14) "yellow";
    assign (17, 14) "yellow";
    assign (15, 15) "yellow";
    assign (17, 15) "yellow";
    assign (16, 17) "dark_bg";
    assign (12, 12) "red";
    assign (13, 12) "red";
    assign (19, 12) "red";
    assign (20, 12) "red";
    for_ (range 13 20) (λ x, assign (x, 19) "dark_bg");
    assign (13, 18) "dark_bg";
    assign (19, 18) "dark_bg" ].

Definition deadlock_body : result sprite :=
  st ← deadlock_fill fresh; deadlock_detail st.

Definition deadlock (fs : files) : result files :=
  st ← deadlock_body; finish st "deadlock" fs.

(** *** heisenbug_boss *)

Definition heisenbug_fill (st : sprite) : result sprite :=
  c0 ← getitem C "purple";
  c1 ← getitem C "blue";
  c2 ← getitem C "cyan";
  c3 ← getitem C "light_blue";
  c4 ← getitem C "magenta";
  let colors := [c0; c1; c2; c3; c4] in
  for_ (range 5 28) (λ y,
    let w := if y <? 10 then Z.min ((y - 5) * 3 + 2) 18
             else if y <? 24 then 18
             else Z.max (18 - (y - 24) * 3) 6 in
    let cx := 16 in
    for_ (range (cx - w / 2) (cx + w / 2)) (λ x st,
      let ci := (x * 3 + y * 7) mod Z.of_nat (length colors) in
      c ← list_getitem colors ci;
      Ok (put (x, y) c st))) st.

(** The crown and horns, registered in [body_set] as they are drawn. *)
Definition heisenbug_crown : sprite → result sprite :=
  for_ [11; 14; 16; 18; 21] (λ x,
    block [
      assign (x, 4) "magenta";
      assign (x, 3) "magenta";
      set_update [(x, 4); (x, 3)] ]).

(** The floating particles, each added to [body_set]. *)
Definition heisenbug_particles : sprite → result sprite :=
  let particles := [(6, 8); (26, 10); (5, 18); (27, 16); (8, 25); (24, 26)] in
  for_ particles (λ '(px, py), assign_add (px, py) "light_blue").

Definition heisenbug_detail : sprite → result sprite :=
  block [
    heisenbug_crown;
    (let eye_positions := [(11, 13); (14, 11); (18, 11); (21, 13)] in
     for_ eye_positions (λ '(ex, ey),
       block [
         assign (ex, ey) "white";
         assign (ex + 1, ey) "white";
         assign (ex, ey + 1) "yellow";
         assign (ex + 1, ey + 1) "white" ]));
    for_ (range 11 22) (λ x,
      let my := 18 + (if x mod 3 =? 0 then 1 else 0) in
      assign (x, my) "dark_bg");
    heisenbug_particles;
    assign (16, 21) "yellow";
    assign (16, 23) "yellow" ].

Definition heisenbug_body : result sprite :=
  st ← heisenbug_fill fresh; heisenbug_detail st.

Definition heisenbug_boss (fs : files) : result files :=
  st ← heisenbug_body; finish st "heisenbug" fs.

End Generators.

(** ** The script *)

(** The module body: the two globals read from the table, then the eight
    generators in order.  The first exception ends the run. *)
Definition main (C : gmap string rgba) (fs : files) : result files :=
  T ← getitem C "transparent";
  B ← getitem C "black";
  block [ nullpointer C T B;
          typemismatch C T B;
          offbyone C T B;
          stackoverflow_boss C T B;
          racecondition C T B;
          memoryleak C T B;
          deadlock C T B;
          heisenbug_boss C T B ] fs.

(** The values the module binds to [T] and [B] under the shipped table
    (lemma [globals_shipped]). *)
Definition T : rgba := (0, 0, 0, 0).
Definition B : rgba := (0, 0, 0, 255).

(** ** Specification-side notions *)

(** [k] is one of the four orthogonal neighbours of [p]. *)
Definition orthogonal (p k : coord) : Prop :=
  (k.2 = p.2 ∧ (k.1 = p.1 - 1 ∨ k.1 = p.1 + 1))
  ∨ (k.1 = p.1 ∧ (k.2 = p.2 - 1 ∨ k.2 = p.2 + 1)).

(** [k] lies on the canvas. *)
Definition in_bounds (k : coord) : Prop :=
  0 ≤ k.1 < 32 ∧ 0 ≤ k.2 < 32.

(** [k] is outline-eligible for the body set [bs]. *)
Definition eligible (bs : gset coord) (k : coord) : Prop :=
  (∃ p, p ∈ bs ∧ orthogonal p k) ∧ in_bounds k ∧ k ∉ bs.

(** The synthetic body set [{5,6,7} x {5,6,7}]. *)
Definition block3x3 : gset coord :=
  list_to_set (x ← [5; 6; 7]; y ← [5; 6; 7]; [(x, y)]).

(** The twelve cells framing [block3x3]. *)
Definition frame3x3 : list coord :=
  [ (5, 4); (6, 4); (7, 4); (5, 8); (6, 8); (7, 8);
    (4, 5); (4, 6); (4, 7); (8, 5); (8, 6); (8, 7) ].

(** [in_bounds] as a test. *)
Definition in_canvas (k : coord) : bool :=
  (0 <=? k.1) && (k.1 <? 32) && (0 <=? k.2) && (k.2 <? 32).

(** The computation [r] returns, and its value satisfies [P]. *)
Inductive holds {A : Type} (r : result A) (P : A → Prop) : Prop :=
| holds_intro (a : A) (Hr : r = Ok a) (HP : P a).

(** The colours a pixel map uses. *)
Definition colors (m : gmap coord rgba) : gset rgba :=
  list_to_set (map_to_list m).*2.

(** The colours the shipped table gives to a list of names. *)
Definition named (names : list string) : gset rgba :=
  list_to_set (omap (λ n, C !! n) names).

(** No entry of the state lies off the canvas. *)
Definition on_canvas (st : sprite) : Prop :=
  ∀ k, ¬ in_bounds k → body st !! k = None ∧ k ∉ body_set st.



(** *** The loops as folds, and the notions above as tests *)

(** The cells the two nested loops of [draw_outline] visit, in order. *)
Definition visited (order : list coord) : list coord :=
  p ← order; (λ d : Z * Z, (p.1 + d.1, p.2 + d.2)) <$> offsets.

(** One visit: the guarded assignment. *)
Definition visit (bs : gset coord) (color : rgba) (m : gmap coord rgba)
    (n : coord) : gmap coord rgba :=
  if outline_test bs n then <[n := color]> m else m.

(** Having a body-set neighbour, as a test. *)
Definition touches (bs : gset coord) (k : coord) : bool :=
  bool_decide ((k.1 + 1, k.2) ∈ bs) || bool_decide ((k.1 - 1, k.2) ∈ bs)
  || bool_decide ((k.1, k.2 + 1) ∈ bs) || bool_decide ((k.1, k.2 - 1) ∈ bs).

(** Eligibility as a test. *)
Definition eligibleb (bs : gset coord) (k : coord) : bool :=
  bool_decide (k ∉ bs) && touches bs k && in_canvas k.

(** [on_canvas] as a test. *)
Definition on_canvasb (st : sprite) : bool :=
  forallb in_canvas (elements (body_set st))
  && forallb (λ kv, in_canvas kv.1) (map_to_list (body st)).

(** Run [tac] on every conjunct of the goal, without unfolding any. *)
Ltac conj_each tac :=
  lazymatch goal with
  | |- _ ∧ _ => split; [tac | conj_each tac]
  | |- _ => tac
  end.

(** *** Statements about the shipped generators *)

(** The body set handed to [draw_outline] is the fill's set together with
    the listed overlay coordinates. *)
Definition body_set_is (fill whole : result sprite) (extra : list coord)
    : Prop :=
  holds fill (λ f, holds whole (λ st,
    dom (body f) = body_set f
    ∧ body_set st = body_set f ∪ list_to_set extra)).

(** The fill uses exactly the colours of the listed names, [n] of them. *)
Definition fill_colors_are (fill : result sprite) (names : list string)
    (n : nat) : Prop :=
  holds fill (λ f,
    colors (body f) = named names ∧ size (colors (body f)) = n).

(** Where the glitch rule sends column [x] of a body centred at [cx]: one
    to the right in the left half, one to the left in the right half. *)
Definition shifted (cx x : Z) : Z := if x <? cx then x + 1 else x - 1.

(** The members of [bs] on row [y]. *)
Definition row (bs : gset coord) (y : Z) : gset coord :=
  filter (λ k, k.2 = y) bs.

(** The rows of typemismatch on which the glitch rule is active. *)
Definition glitch_rows : list Z := filter (λ y, y mod 5 = 0) (range 6 28).

(** On row [y] the fill left exactly the shifted images of the candidate
    columns, and nothing at the two outermost candidates. *)
Definition glitched_row (f : sprite) (y : Z) : Prop :=
  let lo := 16 - typemismatch_w y / 2 in
  let hi := 16 + typemismatch_w y / 2 in
  row (body_set f) y = list_to_set ((λ x, (shifted 16 x, y)) <$> range lo hi)
  ∧ row (dom (body f)) y = row (body_set f) y
  ∧ lo < hi
  ∧ ((lo, y) ∉ body_set f)
  ∧ ((hi - 1, y) ∉ body_set f).

#[local] Instance glitched_row_dec f y : Decision (glitched_row f y).
Proof. unfold glitched_row. cbv zeta. apply _. Defined.

(** How the fill coloured the cells of the two twins. *)
Definition blended (t1 t2 f : sprite) : Prop :=
  body_set f = body_set t1 ∪ body_set t2
  ∧ set_Forall (λ k, body f !! k = C !! "cyan") (body_set t1 ∩ body_set t2)
  ∧ set_Forall (λ k, body f !! k = C !! "light_blue")
      (body_set t2 ∖ body_set t1)
  ∧ set_Forall (λ k, body f !! k = C !! "blue") (body_set t1 ∖ body_set t2)
  ∧ (15, 9) ∈ body_set t1 ∩ body_set t2
  ∧ (22, 9) ∈ body_set t2 ∖ body_set t1
  ∧ (9, 8) ∈ body_set t1 ∖ body_set t2.

#[local] Instance blended_dec t1 t2 f : Decision (blended t1 t2 f).
Proof. unfold blended. apply _. Defined.

(** The colour names the eight generators and the module globals read. *)
Definition referenced : list string :=
  [ "transparent"; "black"; "dark_bg"; "red"; "dark_red"; "orange";
    "yellow"; "green"; "dark_green"; "light_green"; "blue"; "dark_blue";
    "light_blue"; "purple"; "dark_purple"; "magenta"; "white"; "gray";
    "dark_gray"; "brown"; "dark_brown"; "cyan" ].

(** The files of a complete run. *)
Definition saved : gset string :=
  list_to_set [ "nullpointer-south.png"; "typemismatch-south.png";
                "offbyone-south.png"; "stackoverflow-south.png";
                "racecondition-south.png"; "memoryleak-south.png";
                "deadlock-south.png"; "heisenbug-south.png" ].

(** *** Rasterization *)

(** [pixels_map[k] = v], and the dictionary a sequence of items builds. *)
Definition ins (m : gmap coord rgba) (kv : coord * rgba) : gmap coord rgba :=
  <[kv.1 := kv.2]> m.
Definition dict (items : list (coord * rgba)) : gmap coord rgba :=
  foldl ins ∅ items.

(** The 32x32 image that shows pixel map [m] over a background [T]: cell
    [(x, y)] holds [m]'s colour at [(x, y)], or [T] where [m] has none. *)
Definition raster (T : rgba) (m : gmap coord rgba) : Image :=
  {| im_size := (32, 32);
     im_data := (λ i : nat,
                   default T (m !! (Z.of_nat i mod 32, Z.of_nat i / 32)))
                <$> seq 0 1024 |}.

#[local] Instance in_bounds_dec k : Decision (in_bounds k).
Proof. unfold in_bounds. apply _. Defined.

(** A state of two body cells, its body set enumerated backwards, and the
    items of its composite enumerated backwards. *)
Definition two_cells : sprite := put (6, 5) B (put (5, 5) B fresh).
Definition two_cells_order : list coord :=
  reverse (elements (body_set two_cells)).
Definition two_cells_items : list (coord * rgba) :=
  reverse (map_to_list
    (update (draw_outline_in two_cells_order (body two_cells)
               (body_set two_cells) B)
            (body two_cells))).

(** *** Notions for the further properties *)

(** The keys of the body map and the body set: where a sprite has pixels,
    whatever their colours. *)
Definition shape (st : sprite) : gset coord * gset coord :=
  (dom (body st), body_set st).

(** Two statements that both return, with states of the same shape, when
    started from states of the same shape. *)
Definition same_shape (f f' : sprite → result sprite) : Prop :=
  ∀ s s', shape s = shape s' →
    ∃ t t', f s = Ok t ∧ f' s' = Ok t' ∧ shape t = shape t'.

(** The table holds every name the script reads. *)
Definition defines (P : gmap string rgba) : Prop :=
  Forall (λ n, is_Some (P !! n)) referenced.

(** The bodies of the eight generators under a table [P] and a value [B]
    of the global of that name. *)
Definition bodies_under (P : gmap string rgba) (B : rgba)
    : list (result sprite) :=
  [ nullpointer_body P; typemismatch_body P B; offbyone_body P;
    stackoverflow_body P; racecondition_body P; memoryleak_body P;
    deadlock_body P; heisenbug_body P ].

(** A shape whose body-set cells all carry a body pixel and keep at least
    one cell of margin to the canvas border. *)
Definition interior (sh : gset coord * gset coord) : Prop :=
  sh.2 ⊆ sh.1
  ∧ set_Forall (λ p : coord, 1 ≤ p.1 ≤ 30 ∧ 1 ≤ p.2 ≤ 30) sh.2.

#[local] Instance interior_dec sh : Decision (interior sh).
Proof. unfold interior. apply _. Defined.

(** The shipped table with every colour replaced by black. *)
Definition C_mono : gmap string rgba := (λ _ : rgba, B) <$> C.

(** A result that is a value, or the [KeyError] of a name the script reads
    and the table [P] lacks. *)
Definition value_or_missing {A : Type} (P : gmap string rgba)
    (r : result A) : Prop :=
  (∃ a, r = Ok a)
  ∨ (∃ n, n ∈ referenced ∧ P !! n = None ∧ r = Raise (KeyError n)).

(** A statement that can only fail that way. *)
Definition safe (P : gmap string rgba) (f : sprite → result sprite) : Prop :=
  ∀ s, value_or_missing P (f s).

(** Statement [f] cannot return unless the table [P] holds name [n]. *)
Definition reads (P : gmap string rgba) (n : string)
    (f : sprite → result sprite) : Prop :=
  ∀ s t, f s = Ok t → is_Some (P !! n).

(** The directory the run under the shipped table leaves when it starts
    from an empty one and every save succeeds. *)
Definition returned {A : Type} (d : A) (r : result A) : A :=
  match r with
  | Ok a => a
  | Raise _ => d
  end.
Definition shipped_run : files := returned (∅ : files) (main C (∅ : files)).

(** ** Lemmas *)

Lemma globals_shipped :
  getitem C "transparent" = Ok T ∧ getitem C "black" = Ok B.
Proof. split; vm_compute; reflexivity. Qed.

Lemma draw_outline_in_visited order pixels bs color :
  draw_outline_in order pixels bs color
  = foldl (visit bs color) pixels (visited order).
Proof.
  unfold draw_outline_in, visited. revert pixels.
  induction order as [|p order IH]; intros pixels; [done|].
  cbn [foldl mbind list_bind]. rewrite foldl_app, <- IH. done.
Qed.

Lemma visit_fold_lookup bs color ns : ∀ m k,
  foldl (visit bs color) m ns !! k
  = if bool_decide (k ∈ ns) && outline_test bs k then Some color else m !! k.
Proof.
  induction ns as [|n ns IH]; intros m k; cbn [foldl].
  - rewrite bool_decide_eq_false_2 by apply not_elem_of_nil. done.
  - rewrite IH. unfold visit.
    destruct (decide (k = n)) as [->|Hne].
    + rewrite (bool_decide_eq_true_2 (n ∈ n :: ns)) by left.
      destruct (bool_decide (n ∈ ns)); cbn [andb];
        destruct (outline_test bs n); try done.
      by rewrite lookup_insert_eq.
    + assert (bool_decide (k ∈ n :: ns) = bool_decide (k ∈ ns)) as ->.
      { apply bool_decide_ext. rewrite elem_of_cons. tauto. }
      destruct (bool_decide (k ∈ ns) && outline_test bs k); [done|].
      destruct (outline_test bs n); [|done].
      by rewrite lookup_insert_ne.
Qed.

Lemma elem_of_visited order k :
  k ∈ visited order ↔ ∃ p, p ∈ order ∧ orthogonal p k.
Proof.
  unfold visited. rewrite list_elem_of_bind. split.
  - intros (p & Hk & Hp). exists p. split; [done|].
    unfold offsets in Hk. rewrite !fmap_cons, fmap_nil in Hk.
    rewrite !elem_of_cons, elem_of_nil in Hk. unfold orthogonal.
    destruct Hk as [->|[->|[->|[->|[]]]]]; cbn; lia.
  - intros (p & Hp & Ho). exists p. split; [|done].
    unfold offsets. rewrite !fmap_cons, fmap_nil.
    rewrite !elem_of_cons, elem_of_nil. destruct p as [px py], k as [kx ky].
    unfold orthogonal in Ho. cbn [fst snd] in *.
    destruct Ho as [[? [?|?]]|[? [?|?]]]; subst.
    + left. f_equal; lia.
    + right; left. f_equal; lia.
    + right; right; left. f_equal; lia.
    + right; right; right; left. f_equal; lia.
Qed.

Lemma outline_test_spec bs k :
  outline_test bs k = true ↔ in_bounds k ∧ k ∉ bs.
Proof.
  unfold outline_test, in_bounds.
  rewrite !andb_true_iff, bool_decide_eq_true, !Z.leb_le, !Z.ltb_lt. tauto.
Qed.

Lemma touches_spec bs k :
  (k ∉ bs) ∧ (∃ p, p ∈ bs ∧ orthogonal p k)
  ↔ bool_decide (k ∉ bs) && touches bs k = true.
Proof.
  unfold touches.
  rewrite andb_true_iff, !orb_true_iff, !bool_decide_eq_true.
  apply and_iff_compat_l. destruct k as [kx ky]. cbn [fst snd]. split.
  - intros ([px py] & Hp & Ho). unfold orthogonal in Ho. cbn [fst snd] in Ho.
    destruct Ho as [[? [?|?]]|[? [?|?]]]; subst.
    + left; left; left. by replace (px - 1 + 1) with px by lia.
    + left; left; right. by replace (px + 1 - 1) with px by lia.
    + left; right. by replace (py - 1 + 1) with py by lia.
    + right. by replace (py + 1 - 1) with py by lia.
  - unfold orthogonal.
    intros [[[H|H]|H]|H]; eexists; (split; [exact H|]); cbn [fst snd]; lia.
Qed.

(** The guard as a decision of eligibility, for any iteration order that
    enumerates the set. *)
Lemma draw_outline_in_cases order pixels bs color k :
  (∀ p, p ∈ order ↔ p ∈ bs) →
  (eligible bs k ∧ draw_outline_in order pixels bs color !! k = Some color)
  ∨ (¬ eligible bs k ∧ draw_outline_in order pixels bs color !! k = pixels !! k).
Proof.
  intros Hord. rewrite draw_outline_in_visited, visit_fold_lookup.
  assert (eligible bs k ↔
          bool_decide (k ∈ visited order) && outline_test bs k = true) as He.
  { rewrite andb_true_iff, bool_decide_eq_true, elem_of_visited,
      outline_test_spec. unfold eligible.
    split.
    - intros ((p & Hp & Ho) & Hb & Hn). split; [|done].
      exists p. by rewrite Hord.
    - intros ((p & Hp & Ho) & Hb & Hn). split; [|done].
      exists p. by rewrite <- Hord. }
  destruct (bool_decide (k ∈ visited order) && outline_test bs k).
  - left. split; [by apply He|done].
  - right. split; [|done]. intros Hy. apply He in Hy. done.
Qed.

Lemma draw_outline_cases pixels bs color k :
  (eligible bs k ∧ draw_outline pixels bs color !! k = Some color)
  ∨ (¬ eligible bs k ∧ draw_outline pixels bs color !! k = pixels !! k).
Proof.
  apply draw_outline_in_cases. intros p. apply elem_of_elements.
Qed.

Lemma draw_outline_lookup pixels bs color k :
  (eligible bs k → draw_outline pixels bs color !! k = Some color)
  ∧ (¬ eligible bs k → draw_outline pixels bs color !! k = pixels !! k).
Proof.
  destruct (draw_outline_cases pixels bs color k) as [[He Hk]|[He Hk]];
    split; intros; done.
Qed.

Lemma holds_Ok {A : Type} (a : A) (P : A → Prop) : holds (Ok a) P ↔ P a.
Proof.
  split.
  - intros [a' [= ->] HP]. done.
  - intros HP. by exists a.
Qed.

Lemma holds_check {A : Type} (r : result A) (P : A → Prop) (b : A → bool) :
  (∀ a, b a = true → P a) →
  match r with Ok a => b a | Raise _ => false end = true →
  holds r P.
Proof.
  intros Hb. destruct r as [a|e]; [|done].
  intros Ha. apply holds_Ok, Hb, Ha.
Qed.

Lemma holds_decide {A : Type} (r : result A) (P : A → Prop)
    `{!∀ a, Decision (P a)} :
  match r with Ok a => bool_decide (P a) | Raise _ => false end = true →
  holds r P.
Proof.
  apply holds_check. intros a. apply bool_decide_eq_true.
Qed.

Lemma in_canvas_spec k : in_canvas k = true ↔ in_bounds k.
Proof.
  unfold in_canvas, in_bounds.
  rewrite !andb_true_iff, !Z.leb_le, !Z.ltb_lt. tauto.
Qed.

Lemma eligibleb_spec bs k : eligibleb bs k = true ↔ eligible bs k.
Proof.
  unfold eligibleb, eligible.
  rewrite andb_true_iff, <- touches_spec, in_canvas_spec. tauto.
Qed.

Lemma on_canvasb_spec st : on_canvasb st = true → on_canvas st.
Proof.
  unfold on_canvasb. rewrite andb_true_iff, !forallb_forall.
  intros [Hs Hm] k Hk. split.
  - destruct (body st !! k) as [c|] eqn:E; [|done].
    exfalso. apply Hk, in_canvas_spec.
    apply (Hm (k, c)), list_elem_of_In, elem_of_map_to_list. done.
  - intros Hin. apply Hk, in_canvas_spec, Hs, list_elem_of_In.
    by apply elem_of_elements.
Qed.

(** The outline is laid over the incoming pixels, and is itself a function
    of the body set alone. *)
Lemma draw_outline_union pixels bs color :
  draw_outline pixels bs color = draw_outline ∅ bs color ∪ pixels.
Proof.
  apply map_eq. intros k. rewrite lookup_union.
  destruct (draw_outline_cases pixels bs color k) as [[He Hk]|[He Hk]];
    destruct (draw_outline_cases ∅ bs color k) as [[He' Hk']|[He' Hk']];
    try done; rewrite Hk, Hk'.
  - by destruct (pixels !! k).
  - rewrite lookup_empty. by destruct (pixels !! k).
Qed.

Lemma composite_union B st :
  composite B st = body st ∪ draw_outline ∅ (body_set st) B.
Proof.
  unfold composite, update. rewrite draw_outline_union.
  apply map_eq. intros k. rewrite !lookup_union.
  by destruct (body st !! k), (draw_outline ∅ (body_set st) B !! k).
Qed.

Lemma composite_body B st k c :
  body st !! k = Some c → composite B st !! k = Some c.
Proof.
  intros Hk. rewrite composite_union. by apply lookup_union_Some_l.
Qed.

Lemma composite_outline B st k :
  body st !! k = None → eligible (body_set st) k →
  composite B st !! k = Some B.
Proof.
  intros Hk He. rewrite composite_union, lookup_union_r by done.
  by apply draw_outline_lookup.
Qed.

Lemma body_set_is_check fill whole extra :
  match fill, whole with
  | Ok f, Ok st =>
      bool_decide (dom (body f) = body_set f)
      && bool_decide (body_set st = body_set f ∪ list_to_set extra)
  | _, _ => false
  end = true →
  body_set_is fill whole extra.
Proof.
  unfold body_set_is. destruct fill as [f|], whole as [st|]; try done.
  rewrite andb_true_iff, !bool_decide_eq_true. intros H.
  apply holds_Ok, holds_Ok, H.
Qed.

Lemma fill_colors_are_check fill names n :
  match fill with
  | Ok f => bool_decide (colors (body f) = named names)
            && bool_decide (size (colors (body f)) = n)
  | Raise _ => false
  end = true →
  fill_colors_are fill names n.
Proof.
  unfold fill_colors_are. destruct fill as [f|]; [|done].
  rewrite andb_true_iff, !bool_decide_eq_true. intros H.
  apply holds_Ok, H.
Qed.

Lemma typemismatch_pixel_shift cx x y st :
  y mod 5 = 0 →
  ∃ col, typemismatch_pixel C cx y x st = Ok (put (shifted cx x, y) col st).
Proof.
  intros Hy. unfold typemismatch_pixel, shifted.
  apply Z.eqb_eq in Hy. rewrite Hy.
  destruct (x <? cx), (y mod 2 =? 0); eexists; reflexivity.
Qed.

Lemma block_abort {S : Type} (pre post : list (S → result S))
    (stmt : S → result S) (s s' : S) (e : exn) :
  block pre s = Ok s' → stmt s' = Raise e →
  block (pre ++ stmt :: post) s = Raise e.
Proof.
  unfold block. revert s.
  induction pre as [|p pre IH]; intros s; cbn [for_ app].
  - intros [= ->] Hs. cbn. by rewrite Hs.
  - destruct (p s) as [s1|e1]; cbn; [apply IH | done].
Qed.

Lemma Image_new_raster (T : rgba) : Image_new (32, 32) T = raster T ∅.
Proof.
  unfold Image_new, raster. f_equal.
Qed.

Lemma cell_canvas k :
  in_canvas k = true →
  (Z.to_nat (k.2 * 32 + k.1) < 1024)%nat
  ∧ (Z.of_nat (Z.to_nat (k.2 * 32 + k.1)) mod 32,
     Z.of_nat (Z.to_nat (k.2 * 32 + k.1)) / 32) = k.
Proof.
  rewrite in_canvas_spec. unfold in_bounds. destruct k as [x y]. cbn [fst snd].
  intros [Hx Hy]. split; [lia|].
  rewrite Z2Nat.id by lia. f_equal.
  - symmetry. apply (Z.mod_unique _ _ y); lia.
  - symmetry. apply (Z.div_unique _ _ _ x); lia.
Qed.

Lemma canvas_cell (i : nat) :
  (i < 1024)%nat →
  in_canvas (Z.of_nat i mod 32, Z.of_nat i / 32) = true
  ∧ Z.to_nat (Z.of_nat i / 32 * 32 + Z.of_nat i mod 32) = i.
Proof.
  intros Hi. rewrite in_canvas_spec. unfold in_bounds. cbn [fst snd].
  pose proof (Z.mod_pos_bound (Z.of_nat i) 32 eq_refl).
  pose proof (Z.div_mod (Z.of_nat i) 32).
  assert (0 ≤ Z.of_nat i / 32 < 32).
  { split; [apply Z.div_pos; lia | apply Z.div_lt_upper_bound; lia]. }
  split; lia.
Qed.

Lemma putpixel_raster (T : rgba) (m : gmap coord rgba) (k : coord) (c : rgba) :
  in_canvas k = true →
  putpixel (raster T m) k c = Ok (raster T (<[k := c]> m)).
Proof.
  intros Hk. unfold putpixel, inside. cbn [im_size raster fst snd].
  fold (in_canvas k). rewrite Hk. f_equal. unfold raster, cell.
  cbn [im_size im_data fst snd]. f_equal.
  destruct (cell_canvas k Hk) as [Hlt Hback].
  apply list_eq. intros i.
  destruct (decide (i = Z.to_nat (k.2 * 32 + k.1))) as [->|Hne].
  - rewrite list_lookup_insert_eq by (by rewrite length_fmap, length_seq).
    rewrite list_lookup_fmap, lookup_seq_lt by done. cbn [fmap option_fmap option_map].
    cbn [Nat.add]. rewrite Hback, lookup_insert_eq. done.
  - rewrite list_lookup_insert_ne by done.
    rewrite !list_lookup_fmap.
    destruct (seq 0 1024 !! i) as [j|] eqn:E; [|done].
    apply lookup_seq in E as [-> Hi].
    cbn [fmap option_fmap option_map Nat.add]. f_equal.
    rewrite lookup_insert_ne; [done|].
    intros Hki. subst k. cbn [fst snd] in Hne.
    destruct (canvas_cell i Hi) as [_ Heq]. congruence.
Qed.

Lemma raster_off_canvas (T : rgba) (m : gmap coord rgba) (k : coord) (c : rgba) :
  in_canvas k = false → raster T (<[k := c]> m) = raster T m.
Proof.
  intros Hk. unfold raster. f_equal. apply list_fmap_ext.
  intros i j Hj. apply lookup_seq in Hj as [-> Hi].
  rewrite lookup_insert_ne; [done|].
  intros Hki. subst k. destruct (canvas_cell i Hi) as [Hin _].
  cbn [Nat.add] in Hk. congruence.
Qed.

(** The loop of [make_sprite] keeps the image equal to the rendering of the
    entries seen so far. *)
Lemma raster_loop (T : rgba) (items : list (coord * rgba)) :
  ∀ m : gmap coord rgba,
  for_ items (λ '((x, y), color) img,
      if (0 <=? x) && (x <? 32) && (0 <=? y) && (y <? 32)
      then putpixel img (x, y) color
      else Ok img)
    (raster T m)
  = Ok (raster T (foldl ins m items)).
Proof.
  induction items as [|[[x y] c] items IH]; intros m; [done|].
  cbn [for_ foldl]. unfold ins at 2. cbn [fst snd].
  change ((0 <=? x) && (x <? 32) && (0 <=? y) && (y <? 32))
    with (in_canvas (x, y)).
  destruct (in_canvas (x, y)) eqn:Hk.
  - rewrite putpixel_raster by done. cbn. apply IH.
  - cbn. rewrite <- (raster_off_canvas T m (x, y) c) by done. apply IH.
Qed.

Lemma make_sprite_in_raster (T : rgba) (items : list (coord * rgba))
    (name : string) (fs : files) :
  make_sprite_in T items name fs
  = Ok (raster T (dict items),
        <[name +:+ "-south.png" := raster T (dict items)]> fs).
Proof.
  unfold make_sprite_in. rewrite Image_new_raster, raster_loop. done.
Qed.

Lemma ins_fold_lookup (items : list (coord * rgba)) :
  NoDup items.*1 → ∀ m k,
  foldl ins m items !! k
  = match list_to_map (M := gmap coord rgba) items !! k with
    | Some c => Some c
    | None => m !! k
    end.
Proof.
  induction items as [|[k0 c0] items IH]; intros Hnd m k; [done|].
  cbn in Hnd. apply NoDup_cons in Hnd as [Hk0 Hnd].
  cbn [foldl list_to_map foldr]. rewrite (IH Hnd). unfold ins. cbn [fst snd].
  destruct (decide (k = k0)) as [->|Hne].
  - rewrite (not_elem_of_list_to_map_1 items k0) by done.
    by rewrite !lookup_insert_eq.
  - by rewrite !lookup_insert_ne.
Qed.

Lemma dict_perm (items : list (coord * rgba)) (m : gmap coord rgba) :
  items ≡ₚ map_to_list m → dict items = m.
Proof.
  intros Hp.
  assert (NoDup items.*1) as Hnd.
  { rewrite Hp. apply NoDup_fst_map_to_list. }
  unfold dict. apply map_eq. intros k.
  rewrite (ins_fold_lookup items Hnd), lookup_empty.
  rewrite (list_to_map_proper items (map_to_list m)) by done.
  rewrite list_to_map_to_list. by destruct (m !! k).
Qed.

Lemma make_sprite_raster (T : rgba) (pixels_map : gmap coord rgba)
    (name : string) (fs : files) :
  make_sprite T pixels_map name fs
  = Ok (raster T pixels_map,
        <[name +:+ "-south.png" := raster T pixels_map]> fs).
Proof.
  unfold make_sprite. rewrite make_sprite_in_raster.
  by rewrite (dict_perm _ pixels_map).
Qed.

Lemma getpixel_raster (T : rgba) (m : gmap coord rgba) (k : coord) :
  getpixel (raster T m) k
  = if in_canvas k then Ok (default T (m !! k)) else Raise IndexError.
Proof.
  unfold getpixel, inside. cbn [im_size raster fst snd].
  fold (in_canvas k). destruct (in_canvas k) eqn:Hk; [|done].
  destruct (cell_canvas k Hk) as [Hlt Hback].
  unfold cell. cbn [im_size im_data raster fst snd].
  rewrite list_lookup_fmap, lookup_seq_lt by done.
  cbn [fmap option_fmap option_map Nat.add]. by rewrite Hback.
Qed.

Lemma raster_filter (T : rgba) (m : gmap coord rgba) :
  raster T (filter (λ kv, in_bounds kv.1) m) = raster T m.
Proof.
  unfold raster. f_equal. apply list_fmap_ext.
  intros i j Hj. apply lookup_seq in Hj as [-> Hi].
  destruct (canvas_cell i Hi) as [Hin _]. apply in_canvas_spec in Hin.
  rewrite map_lookup_filter. cbn [Nat.add].
  destruct (m !! _) as [c|]; [|done]. cbn.
  by rewrite option_guard_True.
Qed.

(** ** The claims *)

(** C1. For every body set, the outline that [draw_outline] writes consists
    of exactly the cells that are an orthogonal neighbour of a body-set
    member, lie on the canvas and are not body-set members, each with the
    outline colour; cells of the incoming pixel map elsewhere are kept.
    For the body set [{5,6,7} x {5,6,7}] the outline is the twelve framing
    cells: no diagonal cell, no cell of the block. *)
Theorem C1_outline_exact :
  (∀ (bs : gset coord) (color c : rgba) (k : coord),
     draw_outline ∅ bs color !! k = Some c ↔ c = color ∧ eligible bs k)
  ∧ (∀ (pixels : gmap coord rgba) (bs : gset coord) (color : rgba) (k : coord),
       (eligible bs k → draw_outline pixels bs color !! k = Some color)
       ∧ (¬ eligible bs k → draw_outline pixels bs color !! k = pixels !! k))
  ∧ draw_outline ∅ block3x3 B = list_to_map (fmap (λ k, (k, B)) frame3x3)
  ∧ length frame3x3 = 12%nat
  ∧ (NoDup frame3x3)
  ∧ (∀ k, k ∈ frame3x3 →
       (k ∉ block3x3) ∧ (∃ p, p ∈ block3x3 ∧ orthogonal p k)).
Proof.
  split; [|split; [|split; [|split; [|split]]]].
  - intros bs color c k.
    destruct (draw_outline_cases ∅ bs color k) as [[He Hk]|[He Hk]];
      rewrite Hk.
    + split; [intros [= <-]; done | intros [-> _]; done].
    + rewrite lookup_empty. split; [done | intros [_ He']; done].
  - intros. apply draw_outline_lookup.
  - vm_compute. reflexivity.
  - reflexivity.
  - apply (bool_decide_unpack _). vm_compute. exact I.
  - intros k Hk. rewrite touches_spec.
    revert k Hk. apply Forall_forall, (bool_decide_unpack _).
    vm_compute. exact I.
Qed.

(** C2. In the composited pixel map the body wins over the outline and an
    overlay pixel, written into [body] after the fill, wins over both: the
    result is the body map laid over the outline layer.  In [offbyone] the
    antenna pixel (14, 7) sits on an outline-eligible cell and the
    composite carries its light green, not the outline's black. *)
Theorem C2_precedence :
  (∀ (B : rgba) (st : sprite),
     composite B st = body st ∪ draw_outline ∅ (body_set st) B)
  ∧ (∀ (B : rgba) (st : sprite) (k : coord) (c : rgba),
       composite B (setitem k c st) !! k = Some c)
  ∧ (∀ (B : rgba) (st : sprite) (k : coord) (c : rgba),
       body st !! k = Some c → composite B st !! k = Some c)
  ∧ (∀ (B : rgba) (st : sprite) (k : coord),
       body st !! k = None → eligible (body_set st) k →
       composite B st !! k = Some B)
  ∧ holds (offbyone_fill C fresh) (λ f,
      holds (offbyone_body C) (λ st,
        body f !! (14, 7) = None
        ∧ eligible (body_set st) (14, 7)
        ∧ composite B f !! (14, 7) = Some B
        ∧ composite B st !! (14, 7) = C !! "light_green"
        ∧ C !! "light_green" ≠ Some B)).
Proof.
  split; [|split; [|split; [|split]]].
  - apply composite_union.
  - intros B0 st k c. apply composite_body. cbn. apply lookup_insert_eq.
  - apply composite_body.
  - apply composite_outline.
  - apply (holds_check _ _ (λ f,
      match offbyone_body C with
      | Ok st => bool_decide (body f !! (14, 7) = None)
                 && eligibleb (body_set st) (14, 7)
                 && eligibleb (body_set f) (14, 7)
                 && bool_decide (body st !! (14, 7) = C !! "light_green")
                 && bool_decide (C !! "light_green" ≠ Some B)
      | Raise _ => false
      end)); [|vm_compute; reflexivity].
    intros f Hf. destruct (offbyone_body C) as [st|]; [|done].
    apply holds_Ok.
    rewrite !andb_true_iff, !bool_decide_eq_true, !eligibleb_spec in Hf.
    destruct Hf as ((((Hn & He) & Hef) & Hst) & Hne).
    split; [done|]. split; [done|]. split; [by apply composite_outline|].
    split; [|done].
    destruct (body st !! (14, 7)) as [c|] eqn:E.
    + rewrite <- Hst. by apply composite_body.
    + by vm_compute in Hst.
Qed.

(** C3, counterexample.  In [stackoverflow_boss] the crown pixel (12, 8) is
    an overlay pixel, not written by the frame fill, yet it is in the body
    set handed to [draw_outline]; through it the cell (12, 7) becomes
    outline, which it is not for the fill's set. *)
Lemma C3_counterexample :
  holds (stackoverflow_fill C fresh) (λ f,
    holds (stackoverflow_body C) (λ st,
      body_set st ≠ body_set f
      ∧ body f !! (12, 8) = None
      ∧ ((12, 8) ∉ body_set f)
      ∧ ((12, 8) ∈ body_set st)
      ∧ (¬ eligible (body_set f) (12, 7))
      ∧ eligible (body_set st) (12, 7)
      ∧ composite B st !! (12, 7) = Some B)).
Proof.
  apply (holds_check _ _ (λ f,
    match stackoverflow_body C with
    | Ok st => bool_decide (body_set st ≠ body_set f)
               && bool_decide (body f !! (12, 8) = None)
               && bool_decide ((12, 8) ∉ body_set f)
               && bool_decide ((12, 8) ∈ body_set st)
               && negb (eligibleb (body_set f) (12, 7))
               && eligibleb (body_set st) (12, 7)
               && bool_decide (body st !! (12, 7) = None)
    | Raise _ => false
    end)); [|vm_compute; reflexivity].
  intros f Hf. destruct (stackoverflow_body C) as [st|]; [|done].
  apply holds_Ok.
  rewrite !andb_true_iff, !bool_decide_eq_true, negb_true_iff in Hf.
  destruct Hf as ((((((H1 & H2) & H3) & H4) & H5) & H6) & H7).
  apply eligibleb_spec in H6.
  repeat (split; [done|]). split.
  - intros He. apply eligibleb_spec in He. congruence.
  - split; [done|]. by apply composite_outline.
Qed.

(** C3, amended.  The body set handed to [draw_outline] is the set of
    coordinates written by the shape fill (the keys of the body map when
    the fill ends) together with the overlay coordinates the generator
    registers in it: none for nullpointer, typemismatch and offbyone; the
    crown and horns for stackoverflow; the speed lines for racecondition;
    the drips and bubbles for memoryleak; the chain links for deadlock; the
    crown and the particles for heisenbug.  The outline layer is a function
    of that set alone, and an overlay pixel that is only written into the
    body map changes the composite at its own cell and nowhere else. *)
Theorem C3_body_set_registered :
  body_set_is (nullpointer_fill C fresh) (nullpointer_body C) []
  ∧ body_set_is (typemismatch_fill C fresh) (typemismatch_body C B) []
  ∧ body_set_is (offbyone_fill C fresh) (offbyone_body C) []
  ∧ body_set_is (stackoverflow_fill C fresh) (stackoverflow_body C)
      [(12, 8); (16, 8); (20, 8); (12, 9); (16, 9); (20, 9); (11, 9); (21, 9)]
  ∧ body_set_is (racecondition_fill C fresh) (racecondition_body C)
      (y ← [11; 15; 19]; [(7, y); (6, y); (24, y + 1); (25, y + 1)])
  ∧ body_set_is (memoryleak_fill C fresh) (memoryleak_body C)
      ([(10, 24); (10, 25); (10, 26);
        (14, 24); (14, 25); (14, 26); (14, 27); (14, 28);
        (18, 24); (18, 25); (18, 26); (18, 27);
        (22, 24); (22, 25)] ++ [(22, 9); (24, 7); (23, 8)])
  ∧ body_set_is (deadlock_fill C fresh) (deadlock_body C)
      ([(7, 14); (8, 13); (8, 15); (7, 16); (6, 15); (6, 13)]
       ++ [(25, 14); (24, 13); (24, 15); (25, 16); (26, 15); (26, 13)])
  ∧ body_set_is (heisenbug_fill C fresh) (heisenbug_body C)
      ((x ← [11; 14; 16; 18; 21]; [(x, 4); (x, 3)])
       ++ [(6, 8); (26, 10); (5, 18); (27, 16); (8, 25); (24, 26)])
  ∧ (∀ (pixels : gmap coord rgba) (bs : gset coord) (color : rgba),
       draw_outline pixels bs color = draw_outline ∅ bs color ∪ pixels)
  ∧ (∀ (B : rgba) (st : sprite) (k k' : coord) (c : rgba),
       k' ≠ k →
       composite B (setitem k c st) !! k' = composite B st !! k').
Proof.
  repeat (split; [apply body_set_is_check; vm_compute; reflexivity|]).
  split; [apply draw_outline_union|].
  intros B0 st k k' c Hne. rewrite !composite_union, !lookup_union. cbn.
  by rewrite lookup_insert_ne.
Qed.

(** C4, counterexample.  The regular sprites typemismatch and racecondition
    fill with more than two colours, and the frame fill of the boss
    stackoverflow has fewer than five. *)
Lemma C4_counterexample :
  holds (typemismatch_fill C fresh) (λ f,
    ¬ (size (colors (body f)) ≤ 2)%nat)
  ∧ holds (racecondition_fill C fresh) (λ f,
      ¬ (size (colors (body f)) ≤ 2)%nat)
  ∧ holds (stackoverflow_fill C fresh) (λ f,
      ¬ (5 ≤ size (colors (body f)))%nat).
Proof.
  split; [|split].
  - apply (holds_decide _ (λ f, ¬ (size (colors (body f)) ≤ 2)%nat)).
    vm_compute; reflexivity.
  - apply (holds_decide _ (λ f, ¬ (size (colors (body f)) ≤ 2)%nat)).
    vm_compute; reflexivity.
  - apply (holds_decide _ (λ f, ¬ (5 ≤ size (colors (body f)))%nat)).
    vm_compute; reflexivity.
Qed.

(** C4, amended.  The fill of heisenbug uses exactly the five colours of
    its cyclic rule.  The frame fill of stackoverflow has no cyclic rule
    and uses four colours (two frame colours, two border colours); its body
    map reaches five distinct colours only with the overlay pixels.  Of the
    regular sprites, nullpointer, offbyone, memoryleak and deadlock fill
    with exactly two colours, racecondition with three (the two twins and
    their blend) and typemismatch with four (two per half). *)
Theorem C4_fill_colors :
  fill_colors_are (heisenbug_fill C fresh)
    ["purple"; "blue"; "cyan"; "light_blue"; "magenta"] 5
  ∧ fill_colors_are (stackoverflow_fill C fresh)
      ["dark_red"; "red"; "yellow"; "dark_brown"] 4
  ∧ holds (stackoverflow_body C) (λ st, size (colors (body st)) = 5%nat)
  ∧ fill_colors_are (nullpointer_fill C fresh) ["purple"; "dark_purple"] 2
  ∧ fill_colors_are (offbyone_fill C fresh) ["green"; "dark_green"] 2
  ∧ fill_colors_are (memoryleak_fill C fresh) ["green"; "light_green"] 2
  ∧ fill_colors_are (deadlock_fill C fresh) ["gray"; "dark_gray"] 2
  ∧ fill_colors_are (racecondition_fill C fresh)
      ["blue"; "light_blue"; "cyan"] 3
  ∧ fill_colors_are (typemismatch_fill C fresh)
      ["red"; "dark_red"; "orange"; "yellow"] 4.
Proof.
  split; [apply fill_colors_are_check; vm_compute; reflexivity|].
  split; [apply fill_colors_are_check; vm_compute; reflexivity|].
  split.
  { apply (holds_decide _ (λ st, size (colors (body st)) = 5%nat)).
    vm_compute; reflexivity. }
  conj_each ltac:(apply fill_colors_are_check; vm_compute; reflexivity).
Qed.



(** C6. In typemismatch, on a row with [y mod 5 == 0] the loop body writes
    candidate column [x] at its shifted coordinate only, [(x + 1, y)] in
    the left half and [(x - 1, y)] in the right half, in the body map and
    in the body set alike; that step leaves [(x, y)] as it was.  After the
    fill, each of the rows 10, 15, 20 and 25 holds exactly the shifted
    images of its candidates. *)
Theorem C6_shift :
  (∀ (cx x y : Z) (st : sprite),
     y mod 5 = 0 →
     ∃ col st',
       typemismatch_pixel C cx y x st = Ok st'
       ∧ shifted cx x = (if x <? cx then x + 1 else x - 1)
       ∧ body st' = <[(shifted cx x, y) := col]> (body st)
       ∧ body_set st' = {[ (shifted cx x, y) ]} ∪ body_set st
       ∧ body st' !! (x, y) = body st !! (x, y)
       ∧ ((x, y) ∈ body_set st' ↔ (x, y) ∈ body_set st))
  ∧ glitch_rows = [10; 15; 20; 25]
  ∧ holds (typemismatch_fill C fresh) (λ f,
      Forall (glitched_row f) glitch_rows).
Proof.
  split; [|split].
  - intros cx x y st Hy.
    destruct (typemismatch_pixel_shift cx x y st Hy) as [col Hcol].
    exists col, (put (shifted cx x, y) col st).
    assert (shifted cx x ≠ x) as Hne.
    { unfold shifted. destruct (x <? cx); lia. }
    split; [done|]. split; [done|]. split; [done|]. split; [done|].
    cbn. split.
    + apply lookup_insert_ne. congruence.
    + rewrite elem_of_union, elem_of_singleton.
      split; [intros [[=]|]; done | by right].
  - vm_compute. reflexivity.
  - apply (holds_decide _ (λ f, Forall (glitched_row f) glitch_rows)).
    vm_compute. reflexivity.
Qed.

(** A glitched row, a candidate of its left half: the hypothesis of
    [C6_shift] holds on row 10 of typemismatch. *)
Lemma C6_shift_witness :
  10 mod 5 = 0
  ∧ ∃ col st',
      typemismatch_pixel C 16 10 9 fresh = Ok st'
      ∧ shifted 16 9 = (if 9 <? 16 then 9 + 1 else 9 - 1)
      ∧ body st' = <[(shifted 16 9, 10) := col]> (body fresh)
      ∧ body_set st' = {[ (shifted 16 9, 10) ]} ∪ body_set fresh
      ∧ body st' !! (9, 10) = body fresh !! (9, 10)
      ∧ ((9, 10) ∈ body_set st' ↔ (9, 10) ∈ body_set fresh).
Proof.
  split; [reflexivity|].
  exact (proj1 C6_shift 16 9 10 fresh eq_refl).
Defined.

(** C7. [make_sprite] always returns: a 32x32 image whose cell (x, y),
    for 0 <= x, y < 32, holds the colour the composited pixel map gives to
    (x, y), transparent where it gives none.  The image has no cell outside
    those bounds, and the entries of the pixel map that lie outside are
    dropped without an error: the image is the one the pixel map gives
    with those entries removed.  The run of the script saves eight images,
    each 32x32. *)
Theorem C7_canvas_bounds :
  (∀ (T : rgba) (pixels_map : gmap coord rgba) (name : string) (fs : files),
   ∃ img,
     make_sprite T pixels_map name fs
     = Ok (img, <[name +:+ "-south.png" := img]> fs)
     ∧ im_size img = (32, 32)
     ∧ length (im_data img) = 1024%nat
     ∧ (∀ x y, 0 ≤ x < 32 → 0 ≤ y < 32 →
          getpixel img (x, y) = Ok (default T (pixels_map !! (x, y))))
     ∧ (∀ k, ¬ in_bounds k → getpixel img k = Raise IndexError)
     ∧ make_sprite T (filter (λ kv, in_bounds kv.1) pixels_map) name fs
       = Ok (img, <[name +:+ "-south.png" := img]> fs))
  ∧ holds (main C ∅) (λ fs,
      size fs = 8%nat
      ∧ map_Forall (λ _ img,
          im_size img = (32, 32) ∧ length (im_data img) = 1024%nat) fs).
Proof.
  split.
  - intros T0 pixels_map name fs. exists (raster T0 pixels_map).
    split; [apply make_sprite_raster|]. split; [done|].
    split; [cbn [raster im_data]; by rewrite length_fmap, length_seq|].
    split; [|split].
    + intros x y Hx Hy. rewrite getpixel_raster.
      assert (in_canvas (x, y) = true) as ->; [|done].
      apply in_canvas_spec. done.
    + intros k Hk. rewrite getpixel_raster.
      destruct (in_canvas k) eqn:E; [|done].
      apply in_canvas_spec in E. done.
    + by rewrite make_sprite_raster, raster_filter.
  - apply (holds_decide _ (λ fs : files,
      size fs = 8%nat
      ∧ map_Forall (λ _ img,
          im_size img = (32, 32) ∧ length (im_data img) = 1024%nat) fs)).
    vm_compute. reflexivity.
Qed.

(** C8. The generated image is a function of the sprite state, the palette
    globals and nothing else: in whatever order the body set is iterated by
    [draw_outline] and the composited dictionary by [make_sprite], the
    composited pixel map and the saved image are the same. *)
Theorem C8_deterministic :
  ∀ (T B : rgba) (st : sprite) (name : string) (fs : files)
    (order : list coord) (items : list (coord * rgba)),
  list_to_set order = body_set st →
  items ≡ₚ map_to_list
             (update (draw_outline_in order (body st) (body_set st) B)
                     (body st)) →
  update (draw_outline_in order (body st) (body_set st) B) (body st)
  = composite B st
  ∧ make_sprite_in T items name fs = make_sprite T (composite B st) name fs.
Proof.
  intros T0 B0 st name fs order items Hord Hitems.
  assert (draw_outline_in order (body st) (body_set st) B0
          = draw_outline (body st) (body_set st) B0) as Heq.
  { apply map_eq. intros k.
    assert (∀ p, p ∈ order ↔ p ∈ body_set st) as Hin.
    { intros p. rewrite <- Hord. by rewrite elem_of_list_to_set. }
    destruct (draw_outline_in_cases order (body st) (body_set st) B0 k Hin)
      as [[He Hk]|[He Hk]];
      destruct (draw_outline_cases (body st) (body_set st) B0 k)
        as [[He' Hk']|[He' Hk']]; try done; by rewrite Hk, Hk'. }
  rewrite Heq in Hitems |- *. split; [done|].
  rewrite make_sprite_in_raster, make_sprite_raster.
  by rewrite (dict_perm _ _ Hitems).
Qed.

(** The hypotheses of [C8_deterministic] hold for the reversed orders, which
    are not the orders [draw_outline] and [make_sprite] use. *)
Lemma C8_deterministic_witness :
  list_to_set two_cells_order = body_set two_cells
  ∧ two_cells_order ≠ elements (body_set two_cells)
  ∧ two_cells_items ≡ₚ
      map_to_list
        (update (draw_outline_in two_cells_order (body two_cells)
                   (body_set two_cells) B)
                (body two_cells))
  ∧ update (draw_outline_in two_cells_order (body two_cells)
              (body_set two_cells) B)
           (body two_cells)
    = composite B two_cells
  ∧ make_sprite_in T two_cells_items "two_cells" ∅
    = make_sprite T (composite B two_cells) "two_cells" ∅.
Proof.
  assert (list_to_set two_cells_order = body_set two_cells) as H1
    by (vm_compute; reflexivity).
  assert (two_cells_items ≡ₚ
            map_to_list
              (update (draw_outline_in two_cells_order (body two_cells)
                         (body_set two_cells) B)
                      (body two_cells))) as H2
    by apply reverse_Permutation.
  split; [exact H1|]. split; [by vm_compute|]. split; [exact H2|].
  exact (C8_deterministic T B two_cells "two_cells" ∅
           two_cells_order two_cells_items H1 H2).
Defined.

(** C9. A subscript of the table with a name it does not hold raises
    [KeyError]; no statement catches it, so the statements after the
    failing one never run and the run ends in that exception.  Under the
    shipped table every name the script reads is present, and the run saves
    the eight sprites; with any one of those names removed it ends in
    [KeyError] for that name. *)
Theorem C9_palette_lookup :
  (∀ (d : gmap string rgba) (name : string),
     d !! name = None → getitem d name = Raise (KeyError name))
  ∧ (∀ (A A' : Type) (e : exn) (k : A → result A'), Raise e ≫= k = Raise e)
  ∧ (∀ (pre post : list (files → result files)) stmt fs fs' e,
       block pre fs = Ok fs' → stmt fs' = Raise e →
       block (pre ++ stmt :: post) fs = Raise e)
  ∧ Forall (λ name, is_Some (C !! name)) referenced
  ∧ holds (main C ∅) (λ fs, dom fs = saved)
  ∧ Forall (λ name, main (delete name C) ∅ = Raise (KeyError name))
      referenced.
Proof.
  split; [|split; [|split; [|split; [|split]]]].
  - intros d name Hn. unfold getitem. by rewrite Hn.
  - done.
  - intros. by eapply block_abort.
  - apply (bool_decide_unpack _). vm_compute. exact I.
  - apply (holds_decide _ (λ fs : files, dom fs = saved)).
    vm_compute. reflexivity.
  - unfold referenced.
    repeat (apply Forall_cons; split; [vm_compute; reflexivity|]).
    apply Forall_nil_2.
Qed.

(** C10. In racecondition, when the two twin passes have run, every
    coordinate that both passes write carries cyan, every coordinate only
    the second (right) twin writes carries light blue and every coordinate
    only the first (left) twin writes carries blue; each of the three
    regions is inhabited.  The second pass decides by membership in the
    body map, which then holds the first twin only. *)
Theorem C10_twin_blend :
  holds (racecondition_twin1 C fresh) (λ t1,
    holds (racecondition_twin2 C fresh) (λ t2,
      holds (racecondition_fill C fresh) (λ f,
        dom (body t1) = body_set t1
        ∧ (∀ k, k ∈ body_set t1 → k ∈ body_set t2 →
                body f !! k = C !! "cyan")
        ∧ (∀ k, k ∉ body_set t1 → k ∈ body_set t2 →
                body f !! k = C !! "light_blue")
        ∧ (∀ k, k ∈ body_set t1 → k ∉ body_set t2 →
                body f !! k = C !! "blue")
        ∧ blended t1 t2 f)))
  ∧ (∀ (x y : Z) (st : sprite),
       holds (racecondition_pixel2 C y x st) (λ st',
         body st' !! (x, y)
         = (if bool_decide ((x, y) ∈ dom (body st))
            then C !! "cyan" else C !! "light_blue")
         ∧ body_set st' = {[ (x, y) ]} ∪ body_set st)).
Proof.
  split.
  - apply (holds_check _ _ (λ t1,
      match racecondition_twin2 C fresh, racecondition_fill C fresh with
      | Ok t2, Ok f => bool_decide (dom (body t1) = body_set t1)
                       && bool_decide (blended t1 t2 f)
      | _, _ => false
      end)); [|vm_compute; reflexivity].
    intros t1 Ht.
    destruct (racecondition_twin2 C fresh) as [t2|]; [|done].
    destruct (racecondition_fill C fresh) as [f|]; [|done].
    apply holds_Ok, holds_Ok.
    rewrite andb_true_iff, !bool_decide_eq_true in Ht.
    destruct Ht as [Hd Hb]. split; [done|].
    pose proof Hb as (_ & Hc & Hl & Hbl & _).
    split; [|split; [|split]]; [| | |done].
    + intros k H1 H2. apply Hc. by apply elem_of_intersection.
    + intros k H1 H2. apply Hl. by apply elem_of_difference.
    + intros k H1 H2. apply Hbl. by apply elem_of_difference.
  - intros x y st. unfold racecondition_pixel2, assign, getitem.
    assert (is_Some (C !! "cyan")) as [c1 ->] by (vm_compute; eauto).
    assert (is_Some (C !! "light_blue")) as [c2 ->] by (vm_compute; eauto).
    destruct (bool_decide ((x, y) ∈ dom (body st))); cbn;
      (apply holds_Ok; split; [apply lookup_insert_eq | done]).
Qed.

(** ** Further properties of the code *)

Lemma visit_size (bs : gset coord) (color : rgba) (m : gmap coord rgba)
    (n : coord) :
  (size (visit bs color m n) ≤ S (size m))%nat.
Proof.
  unfold visit. destruct (outline_test bs n); [|lia].
  rewrite map_size_insert. destruct (m !! n); cbn; lia.
Qed.

Lemma visit_fold_size (bs : gset coord) (color : rgba) (ns : list coord) :
  ∀ m : gmap coord rgba,
  (size (foldl (visit bs color) m ns) ≤ size m + length ns)%nat.
Proof.
  induction ns as [|n ns IH]; intros m; cbn [foldl length]; [lia|].
  specialize (IH (visit bs color m n)).
  pose proof (visit_size bs color m n). lia.
Qed.

Lemma bind_length_const {A B : Type} (f : A → list B) (n : nat)
    (l : list A) :
  (∀ a, length (f a) = n) → length (l ≫= f) = (n * length l)%nat.
Proof.
  intros Hf. induction l as [|a l IH]; cbn [length]; [by rewrite Nat.mul_0_r|].
  rewrite bind_cons, length_app, IH, Hf. lia.
Qed.

Lemma visited_length (order : list coord) :
  length (visited order) = (4 * length order)%nat.
Proof.
  unfold visited. apply bind_length_const. intros p.
  by rewrite length_fmap.
Qed.

(** X1. [draw_outline] adds at most four entries per body-set member: the
    result has at most [size pixels + 4 * size body_pixels] entries. *)
Theorem outline_size_bound (pixels : gmap coord rgba) (bs : gset coord)
    (color : rgba) :
  (size (draw_outline pixels bs color) ≤ size pixels + 4 * size bs)%nat.
Proof.
  unfold draw_outline. rewrite draw_outline_in_visited.
  pose proof (visit_fold_size bs color (visited (elements bs)) pixels) as H.
  rewrite visited_length in H. exact H.
Qed.

(** X2. Drawing the outline of the same body set a second time changes
    nothing but the colour: the second colour replaces the first, and with
    the same colour [draw_outline] is idempotent. *)
Theorem outline_redrawn (pixels : gmap coord rgba) (bs : gset coord)
    (c1 c2 : rgba) :
  draw_outline (draw_outline pixels bs c1) bs c2 = draw_outline pixels bs c2.
Proof.
  apply map_eq. intros k.
  destruct (draw_outline_cases (draw_outline pixels bs c1) bs c2 k)
    as [[He Hk]|[He Hk]];
    destruct (draw_outline_cases pixels bs c2 k) as [[He' Hk']|[He' Hk']];
    destruct (draw_outline_cases pixels bs c1 k) as [[He1 Hk1]|[He1 Hk1]];
    try done; congruence.
Qed.

Lemma eligible_union (bs1 bs2 : gset coord) (k : coord) :
  eligible (bs1 ∪ bs2) k
  ↔ (eligible bs1 k ∨ eligible bs2 k) ∧ (k ∉ bs1 ∪ bs2).
Proof.
  unfold eligible. split.
  - intros ((p & Hp & Ho) & Hb & Hn). split; [|done].
    apply elem_of_union in Hp as [Hp|Hp]; [left|right];
      (split; [by exists p | split; [done|]]); intros ?; apply Hn;
      apply elem_of_union; tauto.
  - intros ([((p & Hp & Ho) & Hb & _)|((p & Hp & Ho) & Hb & _)] & Hn);
      (split; [exists p; split; [apply elem_of_union; tauto | done] | done]).
Qed.

(** X3. Registering further coordinates in the body set, as
    [body_set.update] does: the outline of a union is the two outlines
    together, less the cells that now belong to the union. *)
Theorem outline_of_union (bs1 bs2 : gset coord) (color : rgba) :
  draw_outline ∅ (bs1 ∪ bs2) color
  = filter (λ kv, kv.1 ∉ bs1 ∪ bs2)
      (draw_outline ∅ bs1 color ∪ draw_outline ∅ bs2 color).
Proof.
  apply map_eq. intros k. rewrite map_lookup_filter, lookup_union.
  destruct (draw_outline_cases ∅ (bs1 ∪ bs2) color k) as [[He Hk]|[He Hk]];
    destruct (draw_outline_cases ∅ bs1 color k) as [[He1 Hk1]|[He1 Hk1]];
    destruct (draw_outline_cases ∅ bs2 color k) as [[He2 Hk2]|[He2 Hk2]];
    rewrite Hk, Hk1, Hk2, ?lookup_empty; cbn;
    rewrite eligible_union in He.
  all: try (destruct He as [_ Hn]; by rewrite option_guard_True).
  all: try (destruct He as [[?|?] _]; done).
  all: try done.
  all: try (rewrite option_guard_False; [done|]; intros Hn; apply He; tauto).
Qed.

(** X4. When the closing [pixels.update(body)] matters: the composite
    equals what [draw_outline] returned exactly when no body pixel of
    another colour lies on an outline-eligible cell.  [draw_outline] alone
    paints over such a pixel. *)
Theorem update_needed_iff (B : rgba) (st : sprite) :
  composite B st = draw_outline (body st) (body_set st) B
  ↔ ∀ k c, body st !! k = Some c → eligible (body_set st) k → c = B.
Proof.
  split.
  - intros Heq k c Hk He.
    pose proof (composite_body B st k c Hk) as Hc.
    rewrite Heq in Hc.
    destruct (draw_outline_lookup (body st) (body_set st) B k) as [Hy _].
    rewrite (Hy He) in Hc. congruence.
  - intros Hall. apply map_eq. intros k.
    rewrite composite_union, lookup_union.
    destruct (draw_outline_cases (body st) (body_set st) B k)
      as [[He Hk]|[He Hk]];
      destruct (draw_outline_cases ∅ (body_set st) B k)
        as [[He' Hk']|[He' Hk']]; try done; rewrite Hk, Hk'.
    + destruct (body st !! k) as [c|] eqn:E; cbn; [|done].
      by rewrite (Hall k c E He).
    + rewrite lookup_empty. by destruct (body st !! k).
Qed.

Lemma closed_aux (B : rgba) (st : sprite) (p k : coord) :
  body_set st ⊆ dom (body st) →
  p ∈ body_set st → orthogonal p k → in_bounds k →
  is_Some (composite B st !! k).
Proof.
  intros Hsub Hp Ho Hb.
  destruct (decide (k ∈ body_set st)) as [Hk|Hk].
  - apply Hsub, elem_of_dom in Hk as [c Hc].
    exists c. by apply composite_body.
  - destruct (body st !! k) as [c|] eqn:E.
    + exists c. by apply composite_body.
    + exists B. apply composite_outline; [done|].
      split; [by exists p | done].
Qed.

(** X5. A closed silhouette: when every body-set cell carries a body
    pixel, every cell of the canvas orthogonally next to a body-set cell is
    painted in the composite (by the body or by the outline). *)
Theorem silhouette_closed (B : rgba) (st : sprite) (p k : coord) :
  body_set st ⊆ dom (body st) →
  p ∈ body_set st → orthogonal p k → in_bounds k →
  is_Some (composite B st !! k).
Proof. apply closed_aux. Qed.

(** The hypotheses of [silhouette_closed] at the two-cell state, for the
    cell above (5, 5). *)
Lemma silhouette_closed_witness :
  body_set two_cells ⊆ dom (body two_cells)
  ∧ (5, 5) ∈ body_set two_cells
  ∧ orthogonal (5, 5) (5, 4)
  ∧ in_bounds (5, 4)
  ∧ is_Some (composite B two_cells !! (5, 4)).
Proof.
  assert (body_set two_cells ⊆ dom (body two_cells)) as H1
    by (apply (bool_decide_unpack _); vm_compute; exact I).
  assert ((5, 5) ∈ body_set two_cells) as H2
    by (apply (bool_decide_unpack _); vm_compute; exact I).
  assert (orthogonal (5, 5) (5, 4)) as H3 by (unfold orthogonal; cbn; lia).
  assert (in_bounds (5, 4)) as H4 by (unfold in_bounds; cbn; lia).
  repeat (split; [assumption|]).
  exact (silhouette_closed B two_cells (5, 5) (5, 4) H1 H2 H3 H4).
Defined.

Lemma composite_keys_on_canvas (B0 : rgba) (st : sprite) (k : coord) :
  on_canvas st → is_Some (composite B0 st !! k) → in_bounds k.
Proof.
  intros Hon [c Hc]. rewrite composite_union, lookup_union in Hc.
  destruct (decide (in_bounds k)) as [|Hn]; [done|exfalso].
  destruct (Hon k Hn) as [Hb _]. rewrite Hb in Hc.
  destruct (draw_outline_cases ∅ (body_set st) B0 k) as [[He Hk]|[He Hk]].
  - destruct He as (_ & Hin & _). done.
  - rewrite Hk, lookup_empty in Hc. done.
Qed.

(** X6. When the body map and the body set lie on the canvas, so does
    every entry of the composite: the bounds test of [make_sprite] then
    drops nothing. *)
Theorem nothing_lost_at_rasterization (B0 : rgba) (st : sprite) :
  on_canvas st →
  (∀ k, is_Some (composite B0 st !! k) → in_bounds k)
  ∧ filter (λ kv, in_bounds kv.1) (composite B0 st) = composite B0 st.
Proof.
  intros Hon. split; [intros k; by apply composite_keys_on_canvas|].
  apply map_filter_id. intros k c Hk. cbn.
  apply (composite_keys_on_canvas B0 st k Hon). eauto.
Qed.

(** The hypothesis of [nothing_lost_at_rasterization] at the two-cell
    state. *)
Lemma nothing_lost_at_rasterization_witness :
  on_canvas two_cells
  ∧ (∀ k, is_Some (composite B two_cells !! k) → in_bounds k)
  ∧ filter (λ kv, in_bounds kv.1) (composite B two_cells)
    = composite B two_cells.
Proof.
  assert (on_canvas two_cells) as H
    by (apply on_canvasb_spec; vm_compute; reflexivity).
  split; [exact H|]. exact (nothing_lost_at_rasterization B two_cells H).
Defined.

Lemma Ok_inj {A : Type} (a b : A) : Ok a = Ok b → a = b.
Proof. by intros [= ->]. Qed.

(** X7. [make_sprite] gives the same result for two pixel maps exactly
    when they show the same colour at every cell of the canvas, an absent
    entry counting as transparent: entries off the canvas, and entries of
    the background colour, make no difference. *)
Theorem same_image_iff (T : rgba) (m1 m2 : gmap coord rgba) (name : string)
    (fs : files) :
  (make_sprite T m1 name fs = make_sprite T m2 name fs
   ↔ ∀ k, in_bounds k → default T (m1 !! k) = default T (m2 !! k))
  ∧ (∀ k, make_sprite T (<[k := T]> m1) name fs
          = make_sprite T (delete k m1) name fs).
Proof.
  assert (∀ a b : gmap coord rgba,
            (∀ k, in_bounds k → default T (a !! k) = default T (b !! k)) →
            raster T a = raster T b) as Hext.
  { intros a b Hall. unfold raster. f_equal. apply list_fmap_ext.
    intros i j Hj. apply lookup_seq in Hj as [-> Hi].
    destruct (canvas_cell i Hi) as [Hin _]. apply in_canvas_spec in Hin.
    by apply Hall. }
  split.
  - rewrite !make_sprite_raster. split.
    + intros Heq k Hk. apply Ok_inj, (f_equal fst) in Heq.
      cbn [fst] in Heq. rename Heq into Hr. apply in_canvas_spec in Hk.
      pose proof (getpixel_raster T m1 k) as H1.
      rewrite Hr, getpixel_raster, Hk in H1. congruence.
    + intros Hall. by rewrite (Hext m1 m2 Hall).
  - intros k. rewrite !make_sprite_raster.
    rewrite (Hext (<[k := T]> m1) (delete k m1)); [done|].
    intros k' _. destruct (decide (k' = k)) as [->|Hne].
    + by rewrite lookup_insert_eq, lookup_delete_eq.
    + by rewrite lookup_insert_ne, lookup_delete_ne.
Qed.



Lemma finish_raster (T B : rgba) (st : sprite) (name : string) (fs : files) :
  finish T B st name fs
  = Ok (<[name +:+ "-south.png" := raster T (composite B st)]> fs).
Proof. unfold finish. by rewrite make_sprite_raster. Qed.


Lemma list_getitem_mod (l : list rgba) (i : Z) :
  l ≠ [] →
  ∃ c, list_getitem l (i mod Z.of_nat (length l)) = Ok c ∧ c ∈ l.
Proof.
  intros Hl. unfold list_getitem.
  assert (0 < Z.of_nat (length l)) as Hn by (destruct l; [done | cbn; lia]).
  pose proof (Z.mod_pos_bound i _ Hn) as Hj.
  destruct (Z.ltb_spec (i mod Z.of_nat (length l)) 0) as [?|_]; [lia|].
  destruct (Z.ltb_spec (i mod Z.of_nat (length l)) 0) as [?|_]; [lia|].
  destruct (lookup_lt_is_Some_2 l (Z.to_nat (i mod Z.of_nat (length l))))
    as [c Hc]; [lia|].
  exists c. rewrite Hc. split; [done|]. by eapply list_elem_of_lookup_2.
Qed.

(** X9. The cyclic colour selection of [heisenbug_boss] never leaves the
    list: for a non-empty list and any integer [i], negative or not,
    [l[i % len(l)]] returns a member of the list. *)
Theorem cyclic_index_in_range (l : list rgba) (i : Z) :
  l ≠ [] →
  ∃ c, list_getitem l (i mod Z.of_nat (length l)) = Ok c ∧ c ∈ l.
Proof. apply list_getitem_mod. Qed.

(** The hypothesis of [cyclic_index_in_range] for a two-colour list and
    a negative index. *)
Lemma cyclic_index_in_range_witness :
  [B; T] ≠ []
  ∧ ∃ c, list_getitem [B; T] (-7 mod Z.of_nat (length [B; T])) = Ok c
         ∧ c ∈ [B; T].
Proof.
  assert ([B; T] ≠ []) as H by done.
  split; [exact H|]. exact (cyclic_index_in_range [B; T] (-7) H).
Defined.

Lemma getitem_defined (P : gmap string rgba) (n : string) :
  defines P → n ∈ referenced → ∃ c, getitem P n = Ok c.
Proof.
  intros HP Hn. unfold defines in HP. rewrite Forall_forall in HP.
  destruct (HP n Hn) as [c Hc]. exists c. unfold getitem. by rewrite Hc.
Qed.

Lemma for_same_gen {A : Type} (l l' : list A)
    (f f' : A → sprite → result sprite) :
  Forall2 (λ a a', same_shape (f a) (f' a')) l l' →
  same_shape (for_ l f) (for_ l' f').
Proof.
  induction 1 as [|a a' l l' Ha _ IH]; intros s s' Hs; cbn [for_].
  - by exists s, s'.
  - destruct (Ha s s' Hs) as (t & t' & -> & -> & Ht). cbn.
    by apply IH.
Qed.

Lemma for_same {A : Type} (l : list A) (f f' : A → sprite → result sprite) :
  (∀ a, same_shape (f a) (f' a)) → same_shape (for_ l f) (for_ l f').
Proof.
  intros Hf. apply for_same_gen. induction l; constructor; auto.
Qed.

Lemma block_same (stmts stmts' : list (sprite → result sprite)) :
  Forall2 same_shape stmts stmts' → same_shape (block stmts) (block stmts').
Proof. intros H. unfold block. by apply for_same_gen. Qed.

Lemma shape_setitem (k : coord) (c c' : rgba) (s s' : sprite) :
  shape s = shape s' → shape (setitem k c s) = shape (setitem k c' s').
Proof.
  unfold shape. cbn [setitem body body_set]. intros [= Hd Hb].
  by rewrite !dom_insert_L, Hd, Hb.
Qed.

Lemma shape_add (k : coord) (s s' : sprite) :
  shape s = shape s' → shape (add k s) = shape (add k s').
Proof.
  unfold shape. cbn [add body body_set]. intros [= Hd Hb].
  by rewrite Hd, Hb.
Qed.

Lemma shape_put (k : coord) (c c' : rgba) (s s' : sprite) :
  shape s = shape s' → shape (put k c s) = shape (put k c' s').
Proof. intros. unfold put. by apply shape_add, shape_setitem. Qed.

Lemma shape_set_update (ks : list coord) (s s' : sprite) :
  shape s = shape s' →
  shape {| body := body s; body_set := list_to_set ks ∪ body_set s |}
  = shape {| body := body s'; body_set := list_to_set ks ∪ body_set s' |}.
Proof.
  unfold shape. cbn [body body_set]. intros [= Hd Hb]. by rewrite Hd, Hb.
Qed.

Lemma shape_dom (s s' : sprite) :
  shape s = shape s' → dom (body s) = dom (body s').
Proof. by intros [= Hd _]. Qed.

Section Palettes.
Context (P P' : gmap string rgba) (HP : defines P) (HP' : defines P').

Ltac name_in_referenced :=
  apply (bool_decide_unpack _); vm_compute; exact I.

Ltac same_lookups :=
  repeat match goal with
  | |- context [getitem ?Q ?n] =>
      let c := fresh "c" in
      let H := fresh "H" in
      destruct (getitem_defined Q n) as [c H];
        [assumption | name_in_referenced |]; rewrite !H; clear H
  | |- context [list_getitem ?l (?i mod Z.of_nat (length ?l))] =>
      let c := fresh "c" in
      let H := fresh "H" in
      destruct (list_getitem_mod l i) as [c [H _]]; [done|];
        rewrite !H; clear H
  end.

Ltac same_leaf :=
  unfold same_shape, typemismatch_pixel, racecondition_pixel2;
  unfold assign, assign_add, set_update;
  let s := fresh "s" in
  let s' := fresh "s'" in
  let Hs := fresh "Hs" in
  intros s s' Hs;
  try rewrite (shape_dom s s' Hs);
  same_lookups;
  repeat match goal with
  | |- context [if ?b then _ else _] => destruct b
  end;
  cbn [mbind result_bind];
  eexists _, _; (split; [reflexivity|]); (split; [reflexivity|]);
  auto using shape_setitem, shape_add, shape_put, shape_set_update.

Ltac same_walk :=
  cbv beta iota zeta;
  lazymatch goal with
  | |- same_shape (for_ _ _) (for_ _ _) =>
      apply for_same;
      let a := fresh "a" in
      intros a;
      repeat match goal with p : (_ * _)%type |- _ => destruct p end;
      same_walk
  | |- same_shape (block _) (block _) =>
      apply block_same; repeat (constructor; [same_walk|]); constructor
  | |- same_shape _ _ => same_leaf
  end.

Lemma nullpointer_fill_same :
  same_shape (nullpointer_fill P) (nullpointer_fill P').
Proof. unfold nullpointer_fill. same_walk. Qed.

Lemma nullpointer_detail_same :
  same_shape (nullpointer_detail P) (nullpointer_detail P').
Proof. unfold nullpointer_detail. same_walk. Qed.


Lemma typemismatch_fill_same :
  same_shape (typemismatch_fill P) (typemismatch_fill P').
Proof. unfold typemismatch_fill. same_walk. Qed.

Lemma typemismatch_detail_same (B B' : rgba) :
  same_shape (typemismatch_detail P B) (typemismatch_detail P' B').
Proof. unfold typemismatch_detail. same_walk. Qed.

Lemma offbyone_fill_same : same_shape (offbyone_fill P) (offbyone_fill P').
Proof. unfold offbyone_fill. same_walk. Qed.

Lemma offbyone_detail_same :
  same_shape (offbyone_detail P) (offbyone_detail P').
Proof. unfold offbyone_detail. same_walk. Qed.

Lemma stackoverflow_layer_same (lx ly rx ry : Z) (col col' : rgba) :
  same_shape (stackoverflow_layer P (lx, ly, rx, ry, col))
             (stackoverflow_layer P' (lx, ly, rx, ry, col')).
Proof. unfold stackoverflow_layer. same_walk. Qed.

Lemma stackoverflow_fill_same :
  same_shape (stackoverflow_fill P) (stackoverflow_fill P').
Proof.
  intros s s' Hs. unfold stackoverflow_fill. same_lookups.
  cbn [mbind result_bind]. cbv zeta.
  apply for_same_gen; [|done].
  repeat (constructor; [apply stackoverflow_layer_same|]). constructor.
Qed.

Lemma stackoverflow_detail_same :
  same_shape (stackoverflow_detail P) (stackoverflow_detail P').
Proof. unfold stackoverflow_detail, stackoverflow_crown. same_walk. Qed.

Lemma racecondition_fill_same :
  same_shape (racecondition_fill P) (racecondition_fill P').
Proof.
  intros s s' Hs. unfold racecondition_fill.
  assert (same_shape (racecondition_twin1 P) (racecondition_twin1 P')) as H1
    by (unfold racecondition_twin1; same_walk).
  assert (same_shape (racecondition_twin2 P) (racecondition_twin2 P')) as H2
    by (unfold racecondition_twin2; same_walk).
  destruct (H1 s s' Hs) as (t & t' & -> & -> & Ht). cbn [mbind result_bind].
  by apply H2.
Qed.

Lemma racecondition_detail_same :
  same_shape (racecondition_detail P) (racecondition_detail P').
Proof. unfold racecondition_detail. same_walk. Qed.

Lemma memoryleak_fill_same :
  same_shape (memoryleak_fill P) (memoryleak_fill P').
Proof. unfold memoryleak_fill. same_walk. Qed.

Lemma memoryleak_detail_same :
  same_shape (memoryleak_detail P) (memoryleak_detail P').
Proof. unfold memoryleak_detail. same_walk. Qed.

Lemma deadlock_fill_same : same_shape (deadlock_fill P) (deadlock_fill P').
Proof. unfold deadlock_fill. same_walk. Qed.

Lemma deadlock_detail_same :
  same_shape (deadlock_detail P) (deadlock_detail P').
Proof. unfold deadlock_detail. same_walk. Qed.

Lemma heisenbug_fill_same :
  same_shape (heisenbug_fill P) (heisenbug_fill P').
Proof.
  intros s s' Hs. unfold heisenbug_fill. same_lookups.
  cbn [mbind result_bind]. cbv zeta.
  apply for_same; [|done]. intros y. same_walk.
Qed.

Lemma heisenbug_detail_same :
  same_shape (heisenbug_detail P) (heisenbug_detail P').
Proof.
  unfold heisenbug_detail, heisenbug_crown, heisenbug_particles. same_walk.
Qed.

(** A generator body returns under both tables, with the same_walk shape. *)
Lemma body_same (fill fill' detail detail' : sprite → result sprite) :
  same_shape fill fill' → same_shape detail detail' →
  ∃ st st',
    (st ← fill fresh; detail st) = Ok st
    ∧ (st ← fill' fresh; detail' st) = Ok st'
    ∧ shape st = shape st'.
Proof.
  intros Hf Hd. destruct (Hf fresh fresh eq_refl) as (t & t' & -> & -> & Ht).
  cbn [mbind result_bind]. by apply Hd.
Qed.

Lemma bodies_same (B B' : rgba) :
  Forall2 (λ r r', ∃ st st',
      r = Ok st ∧ r' = Ok st' ∧ shape st = shape st')
    (bodies_under P B) (bodies_under P' B').
Proof.
  unfold bodies_under.
  constructor;
    [ apply body_same;
      [apply nullpointer_fill_same | apply nullpointer_detail_same] |].
  constructor;
    [ apply body_same;
      [apply typemismatch_fill_same | apply typemismatch_detail_same] |].
  constructor;
    [ apply body_same;
      [apply offbyone_fill_same | apply offbyone_detail_same] |].
  constructor;
    [ apply body_same;
      [apply stackoverflow_fill_same | apply stackoverflow_detail_same] |].
  constructor;
    [ apply body_same;
      [apply racecondition_fill_same | apply racecondition_detail_same] |].
  constructor;
    [ apply body_same;
      [apply memoryleak_fill_same | apply memoryleak_detail_same] |].
  constructor;
    [ apply body_same;
      [apply deadlock_fill_same | apply deadlock_detail_same] |].
  constructor;
    [ apply body_same;
      [apply heisenbug_fill_same | apply heisenbug_detail_same] |].
  constructor.
Qed.

End Palettes.

Lemma outline_dom_color (bs : gset coord) (c c' : rgba) :
  dom (draw_outline ∅ bs c) = dom (draw_outline ∅ bs c').
Proof.
  apply set_eq. intros k. rewrite !elem_of_dom.
  destruct (draw_outline_cases ∅ bs c k) as [[He Hk]|[He Hk]];
    destruct (draw_outline_cases ∅ bs c' k) as [[He' Hk']|[He' Hk']];
    try done; rewrite Hk, Hk', ?lookup_empty; split; eauto.
Qed.

Lemma composite_dom_shape (B B' : rgba) (st st' : sprite) :
  shape st = shape st' → dom (composite B st) = dom (composite B' st').
Proof.
  intros [= Hd Hb]. rewrite !composite_union, !dom_union_L, Hd, Hb.
  f_equal. apply outline_dom_color.
Qed.

(** X10. The shape of a sprite does not depend on the colours: under any
    two tables that hold the names the script reads, each of the eight
    generator bodies returns, with the same keys of the body map, the same
    body set and the same keys of the composite. *)
Theorem shape_independent_of_palette (P P' : gmap string rgba)
    (B B' : rgba) :
  defines P → defines P' →
  Forall2 (λ r r', ∃ st st',
      r = Ok st ∧ r' = Ok st'
      ∧ dom (body st) = dom (body st')
      ∧ body_set st = body_set st'
      ∧ dom (composite B st) = dom (composite B' st'))
    (bodies_under P B) (bodies_under P' B').
Proof.
  intros HP HP'.
  eapply Forall2_impl; [apply (bodies_same P P' HP HP' B B')|].
  intros r r' (st & st' & -> & -> & Hs). exists st, st'.
  split; [done|]. split; [done|].
  pose proof Hs as [= Hd Hb]. split; [done|]. split; [done|].
  by apply composite_dom_shape.
Qed.

(** The hypotheses of [shape_independent_of_palette] for the shipped table
    and the all-black one. *)
Lemma shape_independent_of_palette_witness :
  defines C ∧ defines C_mono
  ∧ Forall2 (λ r r', ∃ st st',
        r = Ok st ∧ r' = Ok st'
        ∧ dom (body st) = dom (body st')
        ∧ body_set st = body_set st'
        ∧ dom (composite B st) = dom (composite T st'))
      (bodies_under C B) (bodies_under C_mono T).
Proof.
  assert (defines C) as H1
    by (apply (bool_decide_unpack _); vm_compute; exact I).
  assert (defines C_mono) as H2
    by (apply (bool_decide_unpack _); vm_compute; exact I).
  split; [exact H1|]. split; [exact H2|].
  exact (shape_independent_of_palette C C_mono B T H1 H2).
Defined.

(** X11. What a run that returns leaves behind.  Under a table that holds
    the names the script reads there are eight images, one under each of
    the eight sprite file names, such that every run that returns, from
    whatever directory, ends with exactly those images laid over the
    directory it started from: the images do not depend on the starting
    directory, every other file is left as it was, and a second run that
    returns changes nothing.  Whether a run returns is not stated: the
    file operations may fail. *)
Theorem returned_directory (P : gmap string rgba) :
  defines P →
  ∃ out : files,
    dom out = saved
    ∧ ∀ fs fs' : files,
        main P fs = Ok fs' →
        fs' = out ∪ fs
        ∧ (∀ file, file ∉ saved → fs' !! file = fs !! file)
        ∧ (∀ fs'' : files, main P fs' = Ok fs'' → fs'' = fs').
Proof.
  intros HP.
  destruct (getitem_defined P "transparent" HP) as [T0 HT];
    [apply (bool_decide_unpack _); vm_compute; exact I|].
  destruct (getitem_defined P "black" HP) as [B0 HB];
    [apply (bool_decide_unpack _); vm_compute; exact I|].
  destruct (body_same _ _ _ _ (nullpointer_fill_same P P HP HP)
              (nullpointer_detail_same P P HP HP)) as (s1 & _ & H1 & _).
  destruct (body_same _ _ _ _ (typemismatch_fill_same P P HP HP)
              (typemismatch_detail_same P P HP HP B0 B0)) as (s2 & _ & H2 & _).
  destruct (body_same _ _ _ _ (offbyone_fill_same P P HP HP)
              (offbyone_detail_same P P HP HP)) as (s3 & _ & H3 & _).
  destruct (body_same _ _ _ _ (stackoverflow_fill_same P P HP HP)
              (stackoverflow_detail_same P P HP HP)) as (s4 & _ & H4 & _).
  destruct (body_same _ _ _ _ (racecondition_fill_same P P HP HP)
              (racecondition_detail_same P P HP HP)) as (s5 & _ & H5 & _).
  destruct (body_same _ _ _ _ (memoryleak_fill_same P P HP HP)
              (memoryleak_detail_same P P HP HP)) as (s6 & _ & H6 & _).
  destruct (body_same _ _ _ _ (deadlock_fill_same P P HP HP)
              (deadlock_detail_same P P HP HP)) as (s7 & _ & H7 & _).
  destruct (body_same _ _ _ _ (heisenbug_fill_same P P HP HP)
              (heisenbug_detail_same P P HP HP)) as (s8 & _ & H8 & _).
  set (out := (<["heisenbug-south.png" := raster T0 (composite B0 s8)]>
              (<["deadlock-south.png" := raster T0 (composite B0 s7)]>
              (<["memoryleak-south.png" := raster T0 (composite B0 s6)]>
              (<["racecondition-south.png" := raster T0 (composite B0 s5)]>
              (<["stackoverflow-south.png" := raster T0 (composite B0 s4)]>
              (<["offbyone-south.png" := raster T0 (composite B0 s3)]>
              (<["typemismatch-south.png" := raster T0 (composite B0 s2)]>
              (<["nullpointer-south.png" := raster T0 (composite B0 s1)]>
                 ∅)))))))) : files).
  assert (dom out = saved) as Hdom.
  { unfold out, saved. rewrite !dom_insert_L, dom_empty_L.
    cbn [list_to_set]. set_solver. }
  assert (∀ fs, main P fs = Ok (out ∪ fs)) as Hmain.
  { intros fs. unfold main. rewrite HT, HB. cbn [mbind result_bind].
    unfold block. cbn [for_].
    unfold nullpointer, nullpointer_body. rewrite H1.
    cbn [mbind result_bind]. rewrite finish_raster. cbn [mbind result_bind].
    unfold typemismatch, typemismatch_body. rewrite H2.
    cbn [mbind result_bind]. rewrite finish_raster. cbn [mbind result_bind].
    unfold offbyone, offbyone_body. rewrite H3.
    cbn [mbind result_bind]. rewrite finish_raster. cbn [mbind result_bind].
    unfold stackoverflow_boss, stackoverflow_body. rewrite H4.
    cbn [mbind result_bind]. rewrite finish_raster. cbn [mbind result_bind].
    unfold racecondition, racecondition_body. rewrite H5.
    cbn [mbind result_bind]. rewrite finish_raster. cbn [mbind result_bind].
    unfold memoryleak, memoryleak_body. rewrite H6.
    cbn [mbind result_bind]. rewrite finish_raster. cbn [mbind result_bind].
    unfold deadlock, deadlock_body. rewrite H7.
    cbn [mbind result_bind]. rewrite finish_raster. cbn [mbind result_bind].
    unfold heisenbug_boss, heisenbug_body. rewrite H8.
    cbn [mbind result_bind]. rewrite finish_raster.
    f_equal. unfold out. cbn [String.append].
    rewrite <- !insert_union_l. by rewrite (left_id_L ∅ (∪)). }
  exists out. split; [done|].
  intros fs fs' Hrun. rewrite Hmain in Hrun. apply Ok_inj in Hrun as <-.
  split; [done|]. split.
  - intros file Hf.
    apply lookup_union_r. apply not_elem_of_dom. by rewrite Hdom.
  - intros fs'' Hrun. rewrite Hmain in Hrun. apply Ok_inj in Hrun as <-.
    by rewrite (assoc_L (∪)), (idemp_L (∪)).
Qed.

(** The hypothesis of [returned_directory] for the shipped table. *)
Lemma returned_directory_witness :
  defines C
  ∧ ∃ out : files,
      dom out = saved
      ∧ ∀ fs fs' : files,
          main C fs = Ok fs' →
          fs' = out ∪ fs
          ∧ (∀ file, file ∉ saved → fs' !! file = fs !! file)
          ∧ (∀ fs'' : files, main C fs' = Ok fs'' → fs'' = fs').
Proof.
  assert (defines C) as H1
    by (apply (bool_decide_unpack _); vm_compute; exact I).
  split; [exact H1|]. exact (returned_directory C H1).
Defined.

Lemma Forall2_Forall_transfer {A A' : Type} (R : A → A' → Prop)
    (Q : A' → Prop) (S : A → Prop) (l : list A) (l' : list A') :
  (∀ a b, R a b → Q b → S a) →
  Forall2 R l l' → Forall Q l' → Forall S l.
Proof.
  intros HS H. induction H as [|a b l l' Hab _ IH]; intros HQ; [constructor|].
  apply Forall_cons in HQ as [Hb HQ]. constructor; eauto.
Qed.

Lemma shipped_interior :
  Forall (λ r, ∃ st, r = Ok st ∧ interior (shape st)) (bodies_under C B).
Proof.
  assert (∀ r : result sprite,
            match r with
            | Ok st => bool_decide (interior (shape st))
            | Raise _ => false
            end = true →
            ∃ st, r = Ok st ∧ interior (shape st)) as Hc.
  { intros [st|e] H; [|done]. exists st. split; [done|].
    by apply bool_decide_eq_true in H. }
  unfold bodies_under.
  repeat (apply Forall_cons; split; [apply Hc; vm_compute; reflexivity|]).
  apply Forall_nil_2.
Qed.

Lemma orthogonal_interior (p k : coord) :
  1 ≤ p.1 ≤ 30 ∧ 1 ≤ p.2 ≤ 30 → orthogonal p k → in_bounds k.
Proof. unfold orthogonal, in_bounds. lia. Qed.

(** X12. Under any table that holds the names the script reads, every
    generator body keeps its body-set cells at least one cell away from
    the canvas border and gives each a body pixel; so every orthogonal
    neighbour of a body-set cell is on the canvas and painted: no outline
    is clipped. *)
Theorem silhouettes_unclipped (P : gmap string rgba) (B0 : rgba) :
  defines P →
  Forall (λ r, ∃ st,
      r = Ok st
      ∧ body_set st ⊆ dom (body st)
      ∧ (∀ p, p ∈ body_set st → 1 ≤ p.1 ≤ 30 ∧ 1 ≤ p.2 ≤ 30)
      ∧ (∀ p k, p ∈ body_set st → orthogonal p k →
           in_bounds k ∧ is_Some (composite B0 st !! k)))
    (bodies_under P B0).
Proof.
  intros HP.
  assert (defines C) as HC
    by (apply (bool_decide_unpack _); vm_compute; exact I).
  eapply Forall2_Forall_transfer;
    [|apply (bodies_same P C HP HC B0 B)|apply shipped_interior].
  intros r r' (st & st' & -> & -> & Hs) (st0 & [= <-] & Hsub & Hall).
  exists st. rewrite <- Hs in Hsub, Hall. cbn [shape fst snd] in Hsub, Hall.
  split; [done|]. split; [done|]. split; [exact Hall|].
  intros p k Hp Ho.
  pose proof (orthogonal_interior p k (Hall p Hp) Ho) as Hk.
  split; [done|]. by eapply closed_aux.
Qed.

(** The hypothesis of [silhouettes_unclipped] for the shipped table. *)
Lemma silhouettes_unclipped_witness :
  defines C
  ∧ Forall (λ r, ∃ st,
        r = Ok st
        ∧ body_set st ⊆ dom (body st)
        ∧ (∀ p, p ∈ body_set st → 1 ≤ p.1 ≤ 30 ∧ 1 ≤ p.2 ≤ 30)
        ∧ (∀ p k, p ∈ body_set st → orthogonal p k →
             in_bounds k ∧ is_Some (composite B st !! k)))
      (bodies_under C B).
Proof.
  assert (defines C) as H1
    by (apply (bool_decide_unpack _); vm_compute; exact I).
  split; [exact H1|]. exact (silhouettes_unclipped C B H1).
Defined.

Lemma getitem_cases (P : gmap string rgba) (n : string) :
  (∃ c, getitem P n = Ok c)
  ∨ (P !! n = None ∧ getitem P n = Raise (KeyError n)).
Proof. unfold getitem. destruct (P !! n); eauto. Qed.

Lemma for_safe {A : Type} (P : gmap string rgba) (l : list A)
    (f : A → sprite → result sprite) :
  (∀ a, safe P (f a)) → safe P (for_ l f).
Proof.
  intros Hf. induction l as [|a l IH]; intros s; cbn [for_].
  - left. by exists s.
  - destruct (Hf a s) as [[s1 ->]|(n & Hn & Hm & ->)]; cbn.
    + apply IH.
    + right. by exists n.
Qed.

Lemma block_safe (P : gmap string rgba)
    (stmts : list (sprite → result sprite)) :
  Forall (safe P) stmts → safe P (block stmts).
Proof.
  intros H s. unfold block. revert s.
  induction H as [|stmt stmts Hs _ IH]; intros s; cbn [for_].
  - left. by exists s.
  - destruct (Hs s) as [[s1 ->]|(n & Hn & Hm & ->)]; cbn.
    + apply IH.
    + right. by exists n.
Qed.

Section Failures.
Context (P : gmap string rgba).

Ltac name_referenced :=
  apply (bool_decide_unpack _); vm_compute; exact I.

Ltac safe_cases :=
  repeat match goal with
  | |- context [if ?b then _ else _] => destruct b
  end;
  repeat match goal with
  | |- context [getitem P ?n] =>
      let c := fresh "c" in
      let H := fresh "H" in
      let Hm := fresh "Hm" in
      destruct (getitem_cases P n) as [[c H]|[Hm H]]; rewrite !H; clear H
  | |- context [list_getitem ?l (?i mod Z.of_nat (length ?l))] =>
      let c := fresh "c" in
      let H := fresh "H" in
      destruct (list_getitem_mod l i) as [c [H _]]; [done|];
        rewrite !H; clear H
  end;
  cbn [mbind result_bind].

Ltac safe_conclude :=
  first
    [ left; eexists; reflexivity
    | refine (or_intror (ex_intro _ _ (conj _ (conj _ eq_refl))));
        [name_referenced | assumption] ].

Ltac safe_leaf :=
  unfold safe, typemismatch_pixel, racecondition_pixel2;
  unfold assign, assign_add, set_update;
  let s := fresh "s" in
  intros s; safe_cases; safe_conclude.

Ltac safe_walk :=
  cbv beta iota zeta;
  lazymatch goal with
  | |- safe _ (for_ _ _) =>
      apply for_safe;
      let a := fresh "a" in
      intros a;
      repeat match goal with p : (_ * _)%type |- _ => destruct p end;
      safe_walk
  | |- safe _ (block _) =>
      apply block_safe; repeat (constructor; [safe_walk|]); constructor
  | |- safe _ _ => safe_leaf
  end.

Lemma nullpointer_fill_safe : safe P (nullpointer_fill P).
Proof. unfold nullpointer_fill. safe_walk. Qed.
Lemma nullpointer_detail_safe : safe P (nullpointer_detail P).
Proof. unfold nullpointer_detail. safe_walk. Qed.
Lemma typemismatch_fill_safe : safe P (typemismatch_fill P).
Proof. unfold typemismatch_fill. safe_walk. Qed.
Lemma typemismatch_detail_safe (B0 : rgba) : safe P (typemismatch_detail P B0).
Proof. unfold typemismatch_detail. safe_walk. Qed.
Lemma offbyone_fill_safe : safe P (offbyone_fill P).
Proof. unfold offbyone_fill. safe_walk. Qed.
Lemma offbyone_detail_safe : safe P (offbyone_detail P).
Proof. unfold offbyone_detail. safe_walk. Qed.
Lemma stackoverflow_layer_safe (layer : Z * Z * Z * Z * rgba) :
  safe P (stackoverflow_layer P layer).
Proof.
  destruct layer as [[[[lx ly] rx] ry] col]. unfold stackoverflow_layer.
  safe_walk.
Qed.
Lemma stackoverflow_fill_safe : safe P (stackoverflow_fill P).
Proof.
  intros s. unfold stackoverflow_fill.
  safe_cases;
    first [apply for_safe; apply stackoverflow_layer_safe | safe_conclude].
Qed.
Lemma stackoverflow_detail_safe : safe P (stackoverflow_detail P).
Proof. unfold stackoverflow_detail, stackoverflow_crown. safe_walk. Qed.
Lemma racecondition_fill_safe : safe P (racecondition_fill P).
Proof.
  intros s. unfold racecondition_fill.
  assert (safe P (racecondition_twin1 P)) as H1
    by (unfold racecondition_twin1; safe_walk).
  assert (safe P (racecondition_twin2 P)) as H2
    by (unfold racecondition_twin2; safe_walk).
  destruct (H1 s) as [[t ->]|(n & Hn & Hm & ->)]; cbn [mbind result_bind].
  - apply H2.
  - right. by exists n.
Qed.
Lemma racecondition_detail_safe : safe P (racecondition_detail P).
Proof. unfold racecondition_detail. safe_walk. Qed.
Lemma memoryleak_fill_safe : safe P (memoryleak_fill P).
Proof. unfold memoryleak_fill. safe_walk. Qed.
Lemma memoryleak_detail_safe : safe P (memoryleak_detail P).
Proof. unfold memoryleak_detail. safe_walk. Qed.
Lemma deadlock_fill_safe : safe P (deadlock_fill P).
Proof. unfold deadlock_fill. safe_walk. Qed.
Lemma deadlock_detail_safe : safe P (deadlock_detail P).
Proof. unfold deadlock_detail. safe_walk. Qed.
Lemma heisenbug_fill_safe : safe P (heisenbug_fill P).
Proof.
  intros s. unfold heisenbug_fill.
  safe_cases; first [apply for_safe; intros y; safe_walk | safe_conclude].
Qed.
Lemma heisenbug_detail_safe : safe P (heisenbug_detail P).
Proof.
  unfold heisenbug_detail, heisenbug_crown, heisenbug_particles. safe_walk.
Qed.

(** A generator body: the fill, then the overlay statements. *)
Lemma body_safe (fill detail : sprite → result sprite) :
  safe P fill → safe P detail →
  value_or_missing P (st ← fill fresh; detail st).
Proof.
  intros Hf Hd.
  destruct (Hf fresh) as [[t ->]|(n & Hn & Hm & ->)]; cbn [mbind result_bind];
    [|right; by exists n].
  apply Hd.
Qed.

End Failures.

(** X13. The only way the pixel computation fails.  Under any table, the
    body of each of the eight generators, that is the fill and the overlay
    statements that build the body map and the body set before anything is
    saved, either returns or raises [KeyError] for a name the script reads
    and the table lacks.  It never raises [IndexError]: the subscript of
    the cyclic colour list is always in range. *)
Theorem bodies_fail_only_on_missing_name (P : gmap string rgba)
    (B0 : rgba) :
  Forall (value_or_missing P) (bodies_under P B0).
Proof.
  unfold bodies_under, nullpointer_body, typemismatch_body, offbyone_body,
    stackoverflow_body, racecondition_body, memoryleak_body, deadlock_body,
    heisenbug_body.
  constructor;
    [ apply body_safe;
      [apply nullpointer_fill_safe | apply nullpointer_detail_safe] |].
  constructor;
    [ apply body_safe;
      [apply typemismatch_fill_safe | apply typemismatch_detail_safe] |].
  constructor;
    [ apply body_safe;
      [apply offbyone_fill_safe | apply offbyone_detail_safe] |].
  constructor;
    [ apply body_safe;
      [apply stackoverflow_fill_safe | apply stackoverflow_detail_safe] |].
  constructor;
    [ apply body_safe;
      [apply racecondition_fill_safe | apply racecondition_detail_safe] |].
  constructor;
    [ apply body_safe;
      [apply memoryleak_fill_safe | apply memoryleak_detail_safe] |].
  constructor;
    [ apply body_safe;
      [apply deadlock_fill_safe | apply deadlock_detail_safe] |].
  constructor;
    [ apply body_safe;
      [apply heisenbug_fill_safe | apply heisenbug_detail_safe] |].
  constructor.
Qed.

Lemma for_ok_elem {A S : Type} (l : list A) (f : A → S → result S) (a : A) :
  a ∈ l → ∀ s t, for_ l f s = Ok t → ∃ s1 t1, f a s1 = Ok t1.
Proof.
  induction l as [|b l IH]; intros Hin s t H; [by apply elem_of_nil in Hin|].
  cbn [for_] in H. destruct (f b s) as [s1|e] eqn:E; [|done].
  cbn in H. apply elem_of_cons in Hin as [->|Hin]; [eauto|].
  by eapply IH.
Qed.

Lemma reads_for {A : Type} (P : gmap string rgba) (n : string) (l : list A)
    (f : A → sprite → result sprite) (a : A) :
  a ∈ l → reads P n (f a) → reads P n (for_ l f).
Proof.
  intros Hin Hr s t H.
  destruct (for_ok_elem l f a Hin s t H) as (s1 & t1 & H1). by eapply Hr.
Qed.

Lemma reads_block (P : gmap string rgba) (n : string)
    (stmts : list (sprite → result sprite)) (i : nat)
    (stmt : sprite → result sprite) :
  stmts !! i = Some stmt → reads P n stmt → reads P n (block stmts).
Proof.
  intros Hi Hr. unfold block.
  apply (reads_for P n stmts (λ stmt, stmt) stmt); [|done].
  by eapply list_elem_of_lookup_2.
Qed.

Lemma gen_inv (T0 B0 : rgba) (fill detail : sprite → result sprite)
    (name : string) (fs1 fs2 : files) :
  (st ← (st ← fill fresh; detail st); finish T0 B0 st name fs1) = Ok fs2 →
  ∃ f st, fill fresh = Ok f ∧ detail f = Ok st.
Proof.
  destruct (fill fresh) as [f|]; cbn [mbind result_bind]; [|done].
  destruct (detail f) as [st|] eqn:E; cbn [mbind result_bind]; [|done].
  intros _. by exists f, st.
Qed.

Section Reads.
Context (P : gmap string rgba).

Ltac reads_mem := apply (bool_decide_unpack _); vm_compute; exact I.

(** At a reads_leaf: decide the closed tests, then follow the lookups. *)
Ltac reads_leaf :=
  unfold reads, typemismatch_pixel, racecondition_pixel2;
  unfold assign, assign_add;
  let s := fresh "s" in
  let t := fresh "t" in
  let H := fresh "H" in
  intros s t H;
  repeat match type of H with
  | context [if ?b then _ else _] =>
      let v := eval vm_compute in b in
      change b with v in H; cbv iota in H
  end;
  unfold getitem in H;
  repeat match type of H with
  | context [P !! ?m] =>
      destruct (P !! m) eqn:?; cbn [mbind result_bind] in H;
        try discriminate H
  end;
  eauto.

Ltac reads_at a :=
  apply (reads_for _ _ _ _ a); [reads_mem | cbv beta iota zeta].
Ltac reads_stmt i :=
  eapply (reads_block _ _ _ i); [reflexivity | cbv beta iota zeta].

Lemma reads_dark_bg (B0 : rgba) : reads P "dark_bg" (typemismatch_detail P B0).
Proof. unfold typemismatch_detail. reads_stmt 9%nat. reads_leaf. Qed.
Lemma reads_red (B0 : rgba) : reads P "red" (typemismatch_detail P B0).
Proof. unfold typemismatch_detail. reads_stmt 3%nat. reads_leaf. Qed.
Lemma reads_yellow (B0 : rgba) : reads P "yellow" (typemismatch_detail P B0).
Proof. unfold typemismatch_detail. reads_stmt 5%nat. reads_leaf. Qed.
Lemma reads_white (B0 : rgba) : reads P "white" (typemismatch_detail P B0).
Proof. unfold typemismatch_detail. reads_stmt 1%nat. reads_leaf. Qed.
Lemma reads_orange : reads P "orange" (typemismatch_fill P).
Proof. unfold typemismatch_fill. reads_at 6. reads_at 16. reads_leaf. Qed.
Lemma reads_green : reads P "green" (offbyone_fill P).
Proof. unfold offbyone_fill. reads_at 8. reads_at 14. reads_leaf. Qed.
Lemma reads_light_green : reads P "light_green" (offbyone_detail P).
Proof. unfold offbyone_detail. reads_stmt 0%nat. reads_leaf. Qed.
Lemma reads_dark_green : reads P "dark_green" (memoryleak_detail P).
Proof. unfold memoryleak_detail. reads_stmt 9%nat. reads_leaf. Qed.
Lemma reads_light_blue : reads P "light_blue" (nullpointer_detail P).
Proof. unfold nullpointer_detail. reads_stmt 2%nat. reads_leaf. Qed.
Lemma reads_magenta : reads P "magenta" (nullpointer_detail P).
Proof. unfold nullpointer_detail. reads_stmt 4%nat. reads_leaf. Qed.
Lemma reads_dark_purple : reads P "dark_purple" (nullpointer_fill P).
Proof. unfold nullpointer_fill. reads_at 18. reads_at 11. reads_leaf. Qed.
Lemma reads_gray : reads P "gray" (deadlock_fill P).
Proof. unfold deadlock_fill. reads_at 9. reads_at 13. reads_leaf. Qed.
Lemma reads_dark_gray : reads P "dark_gray" (deadlock_fill P).
Proof. unfold deadlock_fill. reads_at 9. reads_at 14. reads_leaf. Qed.
Lemma reads_brown : reads P "brown" (deadlock_detail P).
Proof.
  unfold deadlock_detail. reads_stmt 0%nat. reads_at (7, 14). reads_leaf.
Qed.
Lemma reads_dark_blue : reads P "dark_blue" (racecondition_detail P).
Proof.
  unfold racecondition_detail. reads_stmt 6%nat. reads_at 11.
  reads_stmt 0%nat. reads_leaf.
Qed.
Lemma reads_dark_red : reads P "dark_red" (stackoverflow_fill P).
Proof. unfold stackoverflow_fill. reads_leaf. Qed.
Lemma reads_dark_brown : reads P "dark_brown" (stackoverflow_fill P).
Proof.
  intros s t H. unfold stackoverflow_fill, getitem in H.
  destruct (P !! "dark_red") as [c1|]; [|done].
  destruct (P !! "red") as [c2|]; [|done].
  cbn [mbind result_bind] in H. cbv zeta in H.
  revert s t H.
  apply (reads_for _ _ _ _ (8, 10, 24, 14, c1)); [apply list_elem_of_here|].
  unfold stackoverflow_layer. reads_stmt 1%nat. reads_at 8.
  reads_stmt 1%nat. reads_leaf.
Qed.
Lemma reads_heisenbug (n : string) :
  n ∈ ["purple"; "blue"; "cyan"] → reads P n (heisenbug_fill P).
Proof.
  intros Hn s t H. unfold heisenbug_fill, getitem in H.
  destruct (P !! "purple") as [c0|] eqn:E0; [|done].
  destruct (P !! "blue") as [c1|] eqn:E1; [|done].
  destruct (P !! "cyan") as [c2|] eqn:E2; [|done].
  rewrite !elem_of_cons, elem_of_nil in Hn.
  destruct Hn as [->|[->|[->|[]]]]; eauto.
Qed.

End Reads.

(** X14. A run returns only under a table that holds all 22 names the
    script reads: each of them is looked up on every run, so a run under a
    table that lacks one of them never reaches its end. *)
Theorem main_returns_only_if (P : gmap string rgba) (fs out : files) :
  main P fs = Ok out → defines P.
Proof.
  - intros H. unfold main in H.
    destruct (getitem P "transparent") as [T0|] eqn:ET; [|done].
    destruct (getitem P "black") as [B0|] eqn:EB; [|done].
    cbn [mbind result_bind] in H. unfold block in H.
    assert (∀ g, g ∈ [ nullpointer P T0 B0; typemismatch P T0 B0;
                       offbyone P T0 B0; stackoverflow_boss P T0 B0;
                       racecondition P T0 B0; memoryleak P T0 B0;
                       deadlock P T0 B0; heisenbug_boss P T0 B0 ] →
                 ∃ fs1 fs2, g fs1 = Ok fs2) as Hg.
    { intros g Hin.
      exact (for_ok_elem _ (λ stmt, stmt) g Hin fs out H). }
    clear H.
    destruct (Hg (nullpointer P T0 B0)) as (? & ? & G1);
      [apply list_elem_of_here|].
    destruct (Hg (typemismatch P T0 B0)) as (? & ? & G2);
      [do 1 apply list_elem_of_further; apply list_elem_of_here|].
    destruct (Hg (offbyone P T0 B0)) as (? & ? & G3);
      [do 2 apply list_elem_of_further; apply list_elem_of_here|].
    destruct (Hg (stackoverflow_boss P T0 B0)) as (? & ? & G4);
      [do 3 apply list_elem_of_further; apply list_elem_of_here|].
    destruct (Hg (racecondition P T0 B0)) as (? & ? & G5);
      [do 4 apply list_elem_of_further; apply list_elem_of_here|].
    destruct (Hg (memoryleak P T0 B0)) as (? & ? & G6);
      [do 5 apply list_elem_of_further; apply list_elem_of_here|].
    destruct (Hg (deadlock P T0 B0)) as (? & ? & G7);
      [do 6 apply list_elem_of_further; apply list_elem_of_here|].
    destruct (Hg (heisenbug_boss P T0 B0)) as (? & ? & G8);
      [do 7 apply list_elem_of_further; apply list_elem_of_here|].
    clear Hg.
    apply gen_inv in G1 as (f1 & s1 & F1 & D1).
    apply gen_inv in G2 as (f2 & s2 & F2 & D2).
    apply gen_inv in G3 as (f3 & s3 & F3 & D3).
    apply gen_inv in G4 as (f4 & s4 & F4 & D4).
    apply gen_inv in G5 as (f5 & s5 & F5 & D5).
    apply gen_inv in G6 as (f6 & s6 & F6 & D6).
    apply gen_inv in G7 as (f7 & s7 & F7 & D7).
    apply gen_inv in G8 as (f8 & s8 & F8 & D8).
    unfold getitem in ET, EB.
    unfold defines, referenced.
    repeat (apply Forall_cons; split); [..|apply Forall_nil_2].
    + destruct (P !! "transparent"); [eauto|done].
    + destruct (P !! "black"); [eauto|done].
    + exact (reads_dark_bg P B0 _ _ D2).
    + exact (reads_red P B0 _ _ D2).
    + exact (reads_dark_red P _ _ F4).
    + exact (reads_orange P _ _ F2).
    + exact (reads_yellow P B0 _ _ D2).
    + exact (reads_green P _ _ F3).
    + exact (reads_dark_green P _ _ D6).
    + exact (reads_light_green P _ _ D3).
    + refine (reads_heisenbug P "blue" _ _ _ F8).
      apply (bool_decide_unpack _); vm_compute; exact I.
    + exact (reads_dark_blue P _ _ D5).
    + exact (reads_light_blue P _ _ D1).
    + refine (reads_heisenbug P "purple" _ _ _ F8).
      apply (bool_decide_unpack _); vm_compute; exact I.
    + exact (reads_dark_purple P _ _ F1).
    + exact (reads_magenta P _ _ D1).
    + exact (reads_white P B0 _ _ D2).
    + exact (reads_gray P _ _ F7).
    + exact (reads_dark_gray P _ _ F7).
    + exact (reads_brown P _ _ D7).
    + exact (reads_dark_brown P _ _ F4).
    + refine (reads_heisenbug P "cyan" _ _ _ F8).
      apply (bool_decide_unpack _); vm_compute; exact I.
Qed.

(** The hypothesis of [main_returns_only_if] for the run under the shipped
    table from an empty directory. *)
Lemma main_returns_only_if_witness :
  main C ∅ = Ok shipped_run ∧ defines C.
Proof.
  assert (main C ∅ = Ok shipped_run) as H.
  { unfold shipped_run.
    assert (holds (main C ∅) (λ _, True)) as [fs Hr _]
      by (apply (holds_check _ _ (λ _, true));
            [done | vm_compute; reflexivity]).
    rewrite Hr. reflexivity. }
  split; [exact H|]. exact (main_returns_only_if C ∅ shipped_run H).
Defined.

(** X15. What a saved sprite shows: at a cell of the canvas the image
    holds the body pixel if the body map has one, else the outline colour
    if the cell is outline-eligible for the body set, else the background
    colour. *)
Theorem saved_pixel (T0 B0 : rgba) (st : sprite) (name : string)
    (fs : files) (k : coord) :
  in_bounds k →
  holds (finish T0 B0 st name fs) (λ fs',
    ∃ img,
      fs' !! (name +:+ "-south.png") = Some img
      ∧ getpixel img k
        = Ok (match body st !! k with
              | Some c => c
              | None => if eligibleb (body_set st) k then B0 else T0
              end)).
Proof.
  intros Hk. rewrite finish_raster. apply holds_Ok.
  exists (raster T0 (composite B0 st)). split; [apply lookup_insert_eq|].
  rewrite getpixel_raster. apply in_canvas_spec in Hk. rewrite Hk.
  f_equal. rewrite composite_union, lookup_union.
  destruct (body st !! k) as [c|]; cbn.
  - by destruct (draw_outline ∅ (body_set st) B0 !! k).
  - destruct (draw_outline_cases ∅ (body_set st) B0 k) as [[He Hl]|[He Hl]];
      rewrite Hl.
    + apply eligibleb_spec in He. by rewrite He.
    + rewrite lookup_empty.
      destruct (eligibleb (body_set st) k) eqn:E; [|done].
      apply eligibleb_spec in E. done.
Qed.

(** The hypothesis of [saved_pixel] for the cell above (5, 5) of the
    two-cell state. *)
Lemma saved_pixel_witness :
  in_bounds (5, 4)
  ∧ holds (finish T B two_cells "two_cells" ∅) (λ fs',
      ∃ img,
        fs' !! ("two_cells" +:+ "-south.png") = Some img
        ∧ getpixel img (5, 4)
          = Ok (match body two_cells !! (5, 4) with
                | Some c => c
                | None =>
                    if eligibleb (body_set two_cells) (5, 4) then B else T
                end)).
Proof.
  assert (in_bounds (5, 4)) as H by (unfold in_bounds; cbn; lia).
  split; [exact H|]. exact (saved_pixel T B two_cells "two_cells" ∅ (5, 4) H).
Defined.
